(** * SJF_Scheduling: the M/M/1 simulation of [lab3_sjf.c]

    A shallow embedding of the discrete-event simulator: the event list
    (a doubly linked list kept in time order), the ready queue (a singly
    linked list kept in burst order), the exponential variate generator
    and the driver that ties them together.

    Representation choices.
    - A linked list is the Rocq list of its nodes in link order, head first:
      [top_event] / [q_head] is the first element and [last_event] /
      [q_last] the last one; the empty list is the state with both
      pointers [NULL].
    - [struct Custs *] is [option Custs]: a customer record is owned by
      one event node or one queue node at a time, so the record travels
      with its owner; [NULL] is [None].
    - [long int] is a [Z] kept inside [LONG_MIN .. LONG_MAX]; an operation
      whose result leaves the range has no defined behaviour.
    - [float] and [double] quantities are real numbers: rounding is not
      modelled.
    - A computation whose behaviour C leaves undefined (a [NULL]
      dereference, a signed overflow, the conversion of a non-finite value
      to [long int]) has no result: [None]. *)

From Stdlib Require Import String ZArith List Bool Lia.
From Stdlib Require Import Sorting.Sorted Sorting.Permutation.
From Stdlib Require Import Reals Lra.
Import ListNotations.
Local Open Scope Z_scope.

(** ** Data *)

(** simulation events *)
Definition ARRIVAL : Z := 0.
Definition COMPLETE : Z := 1.
Definition EOS : Z := 2.

(** customer nodes *)
Record Custs : Type := mkCusts {
  arrive_time : Z;   (* arrival time of customer *)
  CPU_time : Z       (* CPU burst time of customer *)
}.

(** event list nodes; [forward] and [backward] are the list structure *)
Record event_node : Type := mkEvent {
  ev_type : Z;                  (* event type *)
  ev_time : Z;                  (* time for event to occur *)
  cust_index : option Custs     (* customer responsible for this event *)
}.

(** What the program prints: fixed text, or the formatted mean. *)
Inductive output : Type :=
| Text (msg : string)
| MeanResponse (mean : R).


(** ** Lists ordered by an integer key *)

Section Keyed.
Context {A : Type}.
Variable key : A -> Z.

Definition key_le (a b : A) : Prop := key a <= key b.

(** non-decreasing by [key] *)
Definition ordered (l : list A) : Prop := StronglySorted key_le l.

Fixpoint orderedb (l : list A) : bool :=
  match l with
  | [] => true
  | a :: l' => forallb (fun b => key a <=? key b) l' && orderedb l'
  end.

(** the node a tail pointer designates in a non-empty list *)
Definition last_node (first : A) (rest : list A) : A := last rest first.
End Keyed.

(** ** The event list *)

Module Timeline.

Definition timeline : Type := list event_node.

(** The search loop of [Insert_event]:
    [while (pos != NULL && not_found)].  The result is the nodes walked
    over and the list from [pos] on; [None] is the exit with
    [not_found] still set. *)
Fixpoint scan (etime : Z) (pos : list event_node)
  : option (list event_node * list event_node) :=
  match pos with
  | [] => None
  | p :: forward =>
      if ev_time p >? etime then Some ([], pos)
      else match scan etime forward with
           | Some (walked, found) => Some (p :: walked, found)
           | None => None
           end
  end.

(** [Insert_event] from "it belongs somewhere in the middle" on: the
    list left and what was printed.  Linking the node in writes
    [(pos->backward)->forward]: with [pos] the head of the list, whose
    [backward] is [NULL], there is no result. *)
Definition Insert_event_middle (loc : event_node) (tl : timeline)
  : option (timeline * list output) :=
  match scan (ev_time loc) tl with
  | None =>
      Some (tl, [Text " ***Error - problems in insert event routine***"])
  | Some ([], pos) => None
  | Some (walked, pos) => Some (walked ++ loc :: pos, [])
  end.

Definition Insert_event (etype etime : Z) (custind : option Custs)
    (tl : timeline) : option (timeline * list output) :=
  let loc := mkEvent etype etime custind in
  match tl with
  | [] => Some ([loc], [])                         (* the list is empty *)
  | top :: rest =>
      if ev_time top >? etime
      then Some (loc :: tl, [])                    (* it belongs on top *)
      else if ev_time (last_node top rest) <=? etime
           then Some (tl ++ [loc], [])             (* at the bottom *)
           else Insert_event_middle loc tl
  end.

(** the list [Insert_event] leaves *)
Definition after_insert (etype etime : Z) (custind : option Custs)
    (tl : timeline) : timeline :=
  match Insert_event etype etime custind tl with
  | Some (tl', _) => tl'
  | None => tl
  end.

(** [Remove_event]: the removed node ([None] for [NULL]), the list left
    and what was printed. *)
Definition Remove_event (tl : timeline)
  : option event_node * timeline * list output :=
  match tl with
  | [] => (None, [], [Text " ***Error - Event list underflow***"])
  | ev_ptr :: forward => (Some ev_ptr, forward, [])
  end.

(** the events in the order successive calls of [Remove_event] return them *)
Fixpoint removal_order (n : nat) (tl : timeline) : list event_node :=
  match n with
  | O => []
  | S n' => match Remove_event tl with
            | (Some e, tl', _) => e :: removal_order n' tl'
            | (None, _, _) => []
            end
  end.

End Timeline.

(** ** The ready queue *)

Module ReadyQueue.

Definition queue : Type := list Custs.

(** The [do ... while (searching)] loop of [Puton_queue], from
    [previous_node] on.  The loop reads [following_node->cust_index]
    without a test: with [following_node == NULL] it has no result. *)
Fixpoint scan (newnode previous_node : Custs) (following : list Custs)
  : option (list Custs) :=
  match following with
  | [] => None
  | following_node :: next =>
      if CPU_time newnode <? CPU_time following_node
      then Some (previous_node :: newnode :: following)
      else match scan newnode following_node next with
           | Some linked => Some (previous_node :: linked)
           | None => None
           end
  end.

Definition Puton_queue (pqueue : queue) (pcust : Custs) : option queue :=
  match pqueue with
  | [] => Some [pcust]                              (* initially empty *)
  | q_head :: next =>
      if CPU_time pcust <? CPU_time q_head
      then Some (pcust :: pqueue)                   (* beginning of queue *)
      else if CPU_time pcust >=? CPU_time (last_node q_head next)
           then Some (pqueue ++ [pcust])            (* end of queue *)
           else scan pcust q_head next
  end.

(** [Takoff_queue]: the customer returned ([None] for [NULL]), the
    queue left and what was printed. *)
Definition Takoff_queue (pqueue : queue)
  : option Custs * queue * list output :=
  match pqueue with
  | [] => (None, [], [Text " ***Error - queue underflow***"])
  | index :: next => (Some index, next, [])
  end.

End ReadyQueue.

(** ** The simulation state *)

Record state : Type := mkState {
  top_event : Timeline.timeline;   (* the event list, [top_event] first *)
  sjf : ReadyQueue.queue;          (* the queue, [sjf.q_head] first *)
  accum_resp_time : R;             (* accumulate customer response time *)
  num_resp_time : R;               (* total number of custs in system *)
  clock : Z;                       (* simulation clock *)
  busy : bool;                     (* flag indicating if server is busy *)
  rand_calls : nat;                (* calls of rand() made so far *)
  live_custs : Z;                  (* customer records allocated, not freed *)
  out : list output                (* what has been printed *)
}.

Definition set_top_event (v : Timeline.timeline) (s : state) : state :=
  mkState v (sjf s) (accum_resp_time s) (num_resp_time s) (clock s) (busy s)
          (rand_calls s) (live_custs s) (out s).
Definition set_sjf (v : ReadyQueue.queue) (s : state) : state :=
  mkState (top_event s) v (accum_resp_time s) (num_resp_time s) (clock s)
          (busy s) (rand_calls s) (live_custs s) (out s).
Definition set_accum_resp_time (v : R) (s : state) : state :=
  mkState (top_event s) (sjf s) v (num_resp_time s) (clock s) (busy s)
          (rand_calls s) (live_custs s) (out s).
Definition set_num_resp_time (v : R) (s : state) : state :=
  mkState (top_event s) (sjf s) (accum_resp_time s) v (clock s) (busy s)
          (rand_calls s) (live_custs s) (out s).
Definition set_clock (v : Z) (s : state) : state :=
  mkState (top_event s) (sjf s) (accum_resp_time s) (num_resp_time s) v
          (busy s) (rand_calls s) (live_custs s) (out s).
Definition set_busy (v : bool) (s : state) : state :=
  mkState (top_event s) (sjf s) (accum_resp_time s) (num_resp_time s)
          (clock s) v (rand_calls s) (live_custs s) (out s).
Definition set_rand_calls (v : nat) (s : state) : state :=
  mkState (top_event s) (sjf s) (accum_resp_time s) (num_resp_time s)
          (clock s) (busy s) v (live_custs s) (out s).
Definition set_live_custs (v : Z) (s : state) : state :=
  mkState (top_event s) (sjf s) (accum_resp_time s) (num_resp_time s)
          (clock s) (busy s) (rand_calls s) v (out s).
Definition print (o : list output) (s : state) : state :=
  mkState (top_event s) (sjf s) (accum_resp_time s) (num_resp_time s)
          (clock s) (busy s) (rand_calls s) (live_custs s) (out s ++ o).

(** ** Computations over the global state *)

Definition M (A : Type) : Type := state -> option (A * state).

Definition ret {A} (a : A) : M A := fun s => Some (a, s).
Definition bind {A B} (c : M A) (k : A -> M B) : M B :=
  fun s => match c s with
           | Some (a, s') => k a s'
           | None => None
           end.
(** behaviour undefined *)
Definition undefined {A} : M A := fun _ => None.
Definition gets {A} (f : state -> A) : M A := fun s => Some (f s, s).
Definition modify (f : state -> state) : M unit := fun s => Some (tt, f s).
Definition defined {A} (o : option A) : M A :=
  match o with Some a => ret a | None => undefined end.

Declare Scope sim_scope.
Delimit Scope sim_scope with sim.
Notation "x <- c1 ;; c2" := (bind c1 (fun x => c2))
  (at level 61, c1 at next level, right associativity) : sim_scope.
Notation "c1 ;; c2" := (bind c1 (fun _ => c2))
  (at level 61, right associativity) : sim_scope.
Local Open Scope sim_scope.

(** ** Sample data

    The constants of an LP64 platform with the GNU C library, a source of
    draws that always returns the same number, and a few states. *)

Definition RAND_MAX_gnu : Z := 2147483647.
Definition LONG_MAX_lp64 : Z := 9223372036854775807.
Definition always (r : Z) : nat -> Z := fun _ => r.



(** a customer in service since 1, one of burst 4 waiting, clock 10 *)
Definition sample_busy : state :=
  mkState [mkEvent EOS 100 None] [mkCusts 3 4] 0%R 0%R 10 true 0 2 [].

(** an idle server with customers of bursts 2 and 10 waiting *)
Definition sample_idle : state :=
  mkState [mkEvent EOS 100 None] [mkCusts 0 2; mkCusts 0 10]
          0%R 0%R 0 false 0 2 [].

(** the end of a simulation: two customers served, 300 ticks in all *)
Definition sample_end : state :=
  mkState [mkEvent EOS 10 None] [] 300%R 2%R 7 false 0 0 [].

(** the loop is entered: first arrival at 1, end of simulation at 10 *)
Definition sample_entry_at_1 : state :=
  mkState [mkEvent ARRIVAL 1 (Some (mkCusts 0 0)); mkEvent EOS 10 None]
          [] 0%R 0%R 0 false 1 1 [].

(** after the first turn of the loop, all durations being 1 *)
Definition sample_served : state :=
  mkState [mkEvent ARRIVAL 2 (Some (mkCusts 0 0));
           mkEvent COMPLETE 2 (Some (mkCusts 1 1));
           mkEvent EOS 10 None]
          [] 0%R 0%R 1 true 3 2 [].

(** a simulation of length 1 that ended before its first arrival, at 1 *)
Definition sample_no_customer : state :=
  mkState [mkEvent ARRIVAL 1 (Some (mkCusts 0 0))] [] 0%R 0%R 1 false 1 1
          [Text "...Simulation ends"; Text " Simulation results";
           MeanResponse (0 / (100 * 0))%R].

(** A simulation of length 3, all durations being 1: the loop is
    entered; the first customer is in service; the second waits; the
    first has completed and the second is in service; the report. *)
Definition sample_run_entry : state :=
  mkState [mkEvent ARRIVAL 1 (Some (mkCusts 0 0)); mkEvent EOS 3 None]
          [] 0%R 0%R 0 false 1 1 [].

Definition sample_run_first_served : state :=
  mkState [mkEvent ARRIVAL 2 (Some (mkCusts 0 0));
           mkEvent COMPLETE 2 (Some (mkCusts 1 1));
           mkEvent EOS 3 None]
          [] 0%R 0%R 1 true 3 2 [].

Definition sample_run_second_waits : state :=
  mkState [mkEvent COMPLETE 2 (Some (mkCusts 1 1));
           mkEvent EOS 3 None;
           mkEvent ARRIVAL 3 (Some (mkCusts 0 0))]
          [mkCusts 2 1] 0%R 0%R 2 true 5 3 [].

Definition sample_run_second_served : state :=
  mkState [mkEvent EOS 3 None;
           mkEvent ARRIVAL 3 (Some (mkCusts 0 0));
           mkEvent COMPLETE 3 (Some (mkCusts 2 1))]
          [] (0 + 1)%R (0 + 1)%R 2 true 5 2 [].

Definition sample_run_report : state :=
  mkState [mkEvent ARRIVAL 3 (Some (mkCusts 0 0));
           mkEvent COMPLETE 3 (Some (mkCusts 2 1))]
          [] (0 + 1)%R (0 + 1)%R 3 true 5 2
          [Text "...Simulation ends"; Text " Simulation results";
           MeanResponse ((0 + 1) / (100 * (0 + 1)))%R].

(** ** Storage that has not been written *)

(** The event [e] with the record of its customer holding [fresh], if
    [e] is an arrival: the record of a customer that is still to arrive
    is as [malloc] handed it out. *)
Definition redraw (fresh : Custs) (e : event_node) : event_node :=
  if ev_type e =? ARRIVAL
  then mkEvent (ev_type e) (ev_time e)
               (option_map (fun _ => fresh) (cust_index e))
  else e.

(** the state with other contents of that storage *)
Definition refresh (fresh : Custs) (s : state) : state :=
  set_top_event (map (redraw fresh) (top_event s)) s.

(** [c2] does with the other contents what [c1] does, its result being
    that of [c1] under [f]. *)
Definition commutes {A} (fresh : Custs) (f : A -> A) (c1 c2 : M A) : Prop :=
  forall s,
    c2 (refresh fresh s)
    = match c1 s with
      | Some (a, s') => Some (f a, refresh fresh s')
      | None => None
      end.

(** ** The program *)

Section Simulation.

(** [RAND_MAX] of <stdlib.h> and the largest [long int]. *)
Variable RAND_MAX : Z.
Variable LONG_MAX : Z.
Definition LONG_MIN : Z := - LONG_MAX - 1.

(** The contents of storage [malloc] hands out for a customer. *)
Variable fresh_Custs : Custs.

(** What [Read_parms] reads: the two means, the length of the
    simulation, and the sequence [rand()] returns after [srand(seed)]. *)
Variable iarrive_time : R.
Variable service_time : R.
Variable sim_length : Z.
Variable rand_stream : nat -> Z.

(** a value of type [long int], if it is one *)
Definition to_long (z : Z) : option Z :=
  if (LONG_MIN <=? z) && (z <=? LONG_MAX) then Some z else None.

Definition rand : M Z :=
  fun s => Some (rand_stream (rand_calls s),
                 set_rand_calls (S (rand_calls s)) s).

(** [rand() / (float) RAND_MAX] *)
Definition uniform (r : Z) : R := (IZR r / IZR RAND_MAX)%R.

(** [expon] once [rand()] has returned [r].  [log] is finite on positive
    arguments only; the conversion of anything else to [long int] is
    undefined. *)
Definition expon_of_draw (time : R) (r : Z) : option Z :=
  let time := (time * 100)%R in
  let temp := (1 - uniform r)%R in
  if Rlt_dec 0 temp then to_long (Zceil (- time * ln temp)) else None.

Definition expon (time : R) : M Z :=
  r <- rand ;; defined (expon_of_draw time r).

Definition Insert_event (etype etime : Z) (custind : option Custs) : M unit :=
  fun s =>
    match Timeline.Insert_event etype etime custind (top_event s) with
    | Some (tl, o) => Some (tt, print o (set_top_event tl s))
    | None => None
    end.

Definition Remove_event : M (option event_node) :=
  fun s =>
    let '(ev, tl, o) := Timeline.Remove_event (top_event s) in
    Some (ev, print o (set_top_event tl s)).

Definition Puton_queue (pcust : Custs) : M unit :=
  fun s =>
    match ReadyQueue.Puton_queue (sjf s) pcust with
    | Some q => Some (tt, set_sjf q s)
    | None => None
    end.

Definition Takoff_queue : M (option Custs) :=
  fun s =>
    let '(index, q, o) := ReadyQueue.Takoff_queue (sjf s) in
    Some (index, print o (set_sjf q s)).

Definition malloc_Custs : M Custs :=
  fun s => Some (fresh_Custs, set_live_custs (live_custs s + 1) s).

Definition free_Custs : M unit :=
  modify (fun s => set_live_custs (live_custs s - 1) s).

Definition Gen_arrival : M unit :=
  index <- malloc_Custs ;;
  time <- expon iarrive_time ;;
  clk <- gets clock ;;
  etime <- defined (to_long (clk + time)) ;;
  Insert_event ARRIVAL etime (Some index).

Definition Gen_departure (index : option Custs) : M unit :=
  match index with
  | None => undefined                           (* index->CPU_time *)
  | Some c =>
      let time := CPU_time c in
      clk <- gets clock ;;
      etime <- defined (to_long (time + clk)) ;;
      Insert_event COMPLETE etime index
  end.

Definition start_service : M unit :=
  index <- Takoff_queue ;;
  modify (set_busy true) ;;
  Gen_departure index.

Definition arrive (ev_num : event_node) : M unit :=
  Gen_arrival ;;
  match cust_index ev_num with
  | None => undefined                           (* index->arrive_time *)
  | Some _ =>
      clk <- gets clock ;;
      burst <- expon service_time ;;
      Puton_queue (mkCusts clk burst) ;;
      b <- gets busy ;;
      if negb b then start_service else ret tt
  end.

Definition depart (ev_num : event_node) : M unit :=
  modify (set_busy false) ;;
  match cust_index ev_num with
  | None => undefined                           (* index->arrive_time *)
  | Some index =>
      clk <- gets clock ;;
      temp <- defined (to_long (clk - arrive_time index)) ;;
      modify (fun s => set_accum_resp_time (accum_resp_time s + IZR temp) s) ;;
      modify (fun s => set_num_resp_time (num_resp_time s + 1) s) ;;
      free_Custs ;;
      q <- gets sjf ;;
      match q with
      | [] => ret tt
      | _ :: _ => start_service
      end
  end.

Definition Process_statistics : M unit :=
  fun s =>
    let mean_resp_time :=
      (accum_resp_time s / (100 * num_resp_time s))%R in
    Some (tt, print [Text "...Simulation ends";
                     Text " Simulation results";
                     MeanResponse mean_resp_time] s).

Definition Initialize : M unit :=
  modify (fun s =>
    mkState [] [] 0%R 0%R 0 false (rand_calls s) (live_custs s) (out s)).

(** One turn of the [while (not_done)] loop of [main]; the result is
    [not_done]. *)
Definition main_body : M bool :=
  event <- Remove_event ;;
  match event with
  | None => undefined                           (* event->ev_time *)
  | Some event =>
      modify (set_clock (ev_time event)) ;;
      if ev_type event =? ARRIVAL then arrive event ;; ret true
      else if ev_type event =? COMPLETE then depart event ;; ret true
      else if ev_type event =? EOS then Process_statistics ;; ret false
      else modify (print [Text "***Error - invalid event type"]) ;; ret true
  end.

(** [main] up to the loop: [Read_parms] only supplies the section's
    variables. *)
Definition main_prologue : M unit :=
  Initialize ;;
  Insert_event EOS sim_length None ;;
  Gen_arrival.

(** At most [fuel] turns of the loop; the result tells whether the loop
    was left. *)
Fixpoint main_loop (fuel : nat) : M bool :=
  match fuel with
  | O => ret false
  | S fuel' =>
      not_done <- main_body ;;
      if not_done then main_loop fuel' else ret true
  end.

Definition main (fuel : nat) : M bool :=
  main_prologue ;; main_loop fuel.


(** the globals of a freshly loaded program *)
Definition loaded : state := mkState [] [] 0%R 0%R 0 false O 0 [].

(** The states in which the loop of [main] is entered. *)
Inductive at_loop : state -> Prop :=
| at_loop_first s :
    main_prologue loaded = Some (tt, s) -> at_loop s
| at_loop_next s s' :
    at_loop s -> main_body s = Some (true, s') -> at_loop s'.

(** ** Assumptions and invariants *)

(** The C standard makes [RAND_MAX] at least 32767. *)
Hypothesis RAND_MAX_pos : 0 < RAND_MAX.


(** Both lists are in non-decreasing order of their keys. *)
Definition lists_ordered (s : state) : Prop :=
  ordered ev_time (top_event s) /\ ordered CPU_time (sjf s).


(** ** Further notions: sequences of insertions, populations, potentials *)

(** [Insert_event] for each event of [evs] in turn. *)
Fixpoint Insert_events (evs : list event_node) (tl : Timeline.timeline)
  : option Timeline.timeline :=
  match evs with
  | [] => Some tl
  | e :: evs' =>
      match Timeline.Insert_event (ev_type e) (ev_time e) (cust_index e) tl with
      | Some (tl', _) => Insert_events evs' tl'
      | None => None
      end
  end.

(** [Puton_queue] for each customer of [custs] in turn. *)
Fixpoint Puton_customers (custs : list Custs) (pqueue : ReadyQueue.queue)
  : option ReadyQueue.queue :=
  match custs with
  | [] => Some pqueue
  | c :: custs' =>
      match ReadyQueue.Puton_queue pqueue c with
      | Some q => Puton_customers custs' q
      | None => None
      end
  end.

(** the events of a given time, the customers of a given burst *)
Definition at_time (t : Z) (e : event_node) : bool := ev_time e =? t.
Definition of_burst (b : Z) (c : Custs) : bool := CPU_time c =? b.

(** the number of pending events of a given type *)
Definition count_events (etype : Z) (tl : Timeline.timeline) : nat :=
  length (filter (fun e => ev_type e =? etype) tl).

(** the number of customers in service *)
Definition in_service (s : state) : nat := if busy s then 1%nat else 0%nat.

(** An event of a run: of one of the three types, the end of simulation at
    [sim_length], an arrival or a completion with its customer. *)
Definition event_wf (e : event_node) : Prop :=
  (ev_type e = ARRIVAL \/ ev_type e = COMPLETE \/ ev_type e = EOS) /\
  (ev_type e = EOS -> ev_time e = sim_length) /\
  (ev_type e <> EOS -> cust_index e <> None).

(** The population of a run when the loop of [main] is entered: one
    arrival and the end of simulation pending, a completion pending for
    the customer in service and for no one else, no one waiting while the
    server is idle, nothing printed, and every customer record and every
    draw accounted for. *)
Definition run_shape (s : state) : Prop :=
  Forall event_wf (top_event s) /\
  count_events ARRIVAL (top_event s) = 1%nat /\
  count_events EOS (top_event s) = 1%nat /\
  count_events COMPLETE (top_event s) = in_service s /\
  (busy s = false -> sjf s = []) /\
  out s = [] /\
  live_custs s = 1 + Z.of_nat (length (sjf s)) + Z.of_nat (in_service s) /\
  exists completed : nat,
    num_resp_time s = INR completed /\
    rand_calls s
    = (1 + 2 * (completed + length (sjf s) + in_service s))%nat.








(** ** Facts about key-ordered lists *)

Lemma last_cons {A} (a d : A) (l : list A) : last (a :: l) d = last l a.
Proof.
  revert a d; induction l as [|b l IH]; intros a d; [reflexivity|].
  change (last (a :: b :: l) d) with (last (b :: l) d).
  now rewrite (IH b d), (IH b a).
Qed.

Lemma last_node_In {A} (first : A) (rest : list A) :
  In (last_node first rest) (first :: rest).
Proof.
  unfold last_node; revert first.
  induction rest as [|b rest IH]; intro first; [now left|].
  rewrite last_cons; right; apply IH.
Qed.

Lemma ordered_tail {A} (key : A -> Z) (pre post : list A) :
  ordered key (pre ++ post) -> ordered key post.
Proof.
  induction pre as [|a pre IH]; simpl; [easy|].
  intro H; apply IH; now inversion H.
Qed.

Lemma ordered_head_le {A} (key : A -> Z) (a : A) (l : list A) :
  ordered key (a :: l) -> Forall (fun b => key a <= key b) l.
Proof. intro H; now inversion H. Qed.

Lemma ordered_le_last {A} (key : A -> Z) (first : A) (rest : list A) :
  ordered key (first :: rest) ->
  Forall (fun a => key a <= key (last_node first rest)) (first :: rest).
Proof.
  unfold last_node; revert first.
  induction rest as [|b rest IH]; intros first H.
  - constructor; [simpl; lia | constructor].
  - rewrite last_cons.
    assert (Hb : ordered key (b :: rest)) by now inversion H.
    specialize (IH b Hb).
    constructor; [|exact IH].
    apply ordered_head_le in H.
    inversion H; inversion IH; subst; lia.
Qed.

Lemma ordered_insert {A} (key : A -> Z) (pre post : list A) (x : A) :
  ordered key (pre ++ post) ->
  Forall (fun a => key a <= key x) pre ->
  Forall (fun a => key x <= key a) post ->
  ordered key (pre ++ x :: post).
Proof.
  induction pre as [|a pre IH]; simpl; intros Hs Hpre Hpost.
  - now constructor.
  - inversion Hs as [|? ? Hs' Ha]; inversion Hpre; subst.
    constructor; [now apply IH|].
    apply Forall_app in Ha as [Ha1 Ha2].
    apply Forall_app; split; [exact Ha1|].
    constructor; [assumption | exact Ha2].
Qed.

Lemma orderedb_ordered {A} (key : A -> Z) (l : list A) :
  orderedb key l = true -> ordered key l.
Proof.
  induction l as [|a l IH]; simpl; intro H; [constructor|].
  apply andb_prop in H as [Ha Hl].
  constructor; [now apply IH|].
  rewrite forallb_forall in Ha.
  apply Forall_forall; intros b Hb.
  specialize (Ha b Hb); unfold key_le; lia.
Qed.

(** A list splits in one way only into a part below a bound and a part
    above it. *)
Lemma split_unique {A} (key : A -> Z) (t : Z) (p1 q1 p2 q2 : list A) :
  p1 ++ q1 = p2 ++ q2 ->
  Forall (fun a => key a <= t) p1 -> Forall (fun a => t < key a) q1 ->
  Forall (fun a => key a <= t) p2 -> Forall (fun a => t < key a) q2 ->
  p1 = p2 /\ q1 = q2.
Proof.
  revert p2; induction p1 as [|a p1 IH]; intros [|b p2] E Hp1 Hq1 Hp2 Hq2;
    simpl in E.
  - now split.
  - subst q1; inversion Hq1; inversion Hp2; subst; lia.
  - subst q2; inversion Hq2; inversion Hp1; subst; lia.
  - injection E as -> E.
    inversion Hp1; inversion Hp2; subst.
    destruct (IH p2 E) as [-> ->]; auto.
Qed.

(** ** Facts about the event list *)

Lemma Timeline_scan_found (etime : Z) (l walked pos : list event_node) :
  Timeline.scan etime l = Some (walked, pos) ->
  l = walked ++ pos /\
  Forall (fun e => ev_time e <= etime) walked /\
  exists p forward, pos = p :: forward /\ etime < ev_time p.
Proof.
  revert walked pos; induction l as [|p l IH]; intros walked pos; simpl.
  - discriminate.
  - destruct (ev_time p >? etime) eqn:E.
    + intros [= <- <-]; repeat split; [constructor|].
      exists p, l; split; [reflexivity | lia].
    + destruct (Timeline.scan etime l) as [[w f]|]; [|discriminate].
      intros [= <- <-].
      destruct (IH w f eq_refl) as (-> & Hw & Hf).
      repeat split; [|exact Hf].
      constructor; [lia | exact Hw].
Qed.

Lemma Timeline_scan_fails (etime : Z) (l : list event_node) :
  Timeline.scan etime l = None <->
  Forall (fun e => ev_time e <= etime) l.
Proof.
  induction l as [|p l IH]; simpl.
  - split; [constructor | reflexivity].
  - destruct (ev_time p >? etime) eqn:E.
    + split; [discriminate|].
      intro H; inversion H; subst; lia.
    + destruct (Timeline.scan etime l) as [[w f]|].
      * split; [discriminate|].
        intro H; inversion H; subst.
        assert (X : Some (w, f) = None) by now apply IH.
        discriminate X.
      * split; [|reflexivity].
        intros _; constructor; [lia | now apply IH].
Qed.

(** [Insert_event] links the new node in, whatever the list; on an
    ordered list it goes after every node not later than it and before
    every later one. *)
Lemma Timeline_Insert_event_split (etype etime : Z) (custind : option Custs)
    (tl : Timeline.timeline) :
  exists pre post,
    tl = pre ++ post /\
    Timeline.Insert_event etype etime custind tl
      = Some (pre ++ mkEvent etype etime custind :: post, []) /\
    (ordered ev_time tl ->
     Forall (fun e => ev_time e <= etime) pre /\
     Forall (fun e => etime < ev_time e) post).
Proof.
  destruct tl as [|top rest].
  { exists [], []; repeat split; constructor. }
  unfold Timeline.Insert_event.
  destruct (ev_time top >? etime) eqn:Etop.
  { exists [], (top :: rest); repeat split; [constructor|].
    apply ordered_head_le in H.
    constructor; [lia|].
    eapply Forall_impl; [|exact H]; simpl; intros; lia. }
  destruct (ev_time (last_node top rest) <=? etime) eqn:Elast.
  { exists (top :: rest), []; rewrite app_nil_r; repeat split;
      [|constructor].
    apply ordered_le_last in H.
    eapply Forall_impl; [|exact H]; simpl; intros; lia. }
  unfold Timeline.Insert_event_middle; simpl ev_time.
  destruct (Timeline.scan etime (top :: rest)) as [[walked pos]|] eqn:Escan.
  - destruct (Timeline_scan_found _ _ _ _ Escan) as (E & Hw & p & fwd & -> & Hp).
    destruct walked as [|w walked].
    { simpl in E; injection E as -> _; lia. }
    exists (w :: walked), (p :: fwd); repeat split; auto.
    rewrite E in H; apply ordered_tail, ordered_head_le in H.
    constructor; [exact Hp|].
    eapply Forall_impl; [|exact H]; simpl; intros; lia.
  - exfalso.
    apply Timeline_scan_fails in Escan.
    rewrite Forall_forall in Escan.
    specialize (Escan _ (last_node_In top rest)); lia.
Qed.

Lemma Timeline_after_insert_split (etype etime : Z) (custind : option Custs)
    (tl : Timeline.timeline) :
  exists pre post,
    tl = pre ++ post /\
    Timeline.after_insert etype etime custind tl
      = pre ++ mkEvent etype etime custind :: post /\
    (ordered ev_time tl ->
     Forall (fun e => ev_time e <= etime) pre /\
     Forall (fun e => etime < ev_time e) post).
Proof.
  destruct (Timeline_Insert_event_split etype etime custind tl)
    as (pre & post & E & Eq & H).
  exists pre, post; repeat split; [exact E | | apply H; assumption ..].
  unfold Timeline.after_insert; now rewrite Eq.
Qed.

Lemma Timeline_removal_order_firstn (n : nat) (tl : Timeline.timeline) :
  Timeline.removal_order n tl = firstn n tl.
Proof.
  revert tl; induction n as [|n IH]; intros [|e tl]; simpl; try reflexivity.
  now rewrite IH.
Qed.

(** ** Facts about the ready queue *)

Lemma last_node_In_rest {A} (first : A) (rest : list A) :
  rest <> [] -> In (last_node first rest) rest.
Proof.
  destruct rest as [|b rest]; [easy|]; intros _.
  unfold last_node; rewrite last_cons.
  apply (last_node_In b rest).
Qed.

Lemma ReadyQueue_scan_found (newnode previous_node : Custs)
    (following linked : list Custs) :
  ReadyQueue.scan newnode previous_node following = Some linked ->
  exists pre following_node post,
    following = pre ++ following_node :: post /\
    linked = previous_node :: pre ++ newnode :: following_node :: post /\
    Forall (fun c => CPU_time c <= CPU_time newnode) pre /\
    CPU_time newnode < CPU_time following_node.
Proof.
  revert previous_node linked.
  induction following as [|f following IH]; intros previous_node linked; simpl.
  - discriminate.
  - destruct (CPU_time newnode <? CPU_time f) eqn:E.
    + intros [= <-]; exists [], f, following.
      repeat split; [constructor | lia].
    + destruct (ReadyQueue.scan newnode f following) as [l|] eqn:El;
        [|discriminate].
      intros [= <-].
      destruct (IH f l El) as (pre & g & post & -> & -> & Hpre & Hg).
      exists (f :: pre), g, post; repeat split; [|exact Hg].
      constructor; [lia | exact Hpre].
Qed.

Lemma ReadyQueue_scan_fails (newnode previous_node : Custs)
    (following : list Custs) :
  ReadyQueue.scan newnode previous_node following = None ->
  Forall (fun c => CPU_time c <= CPU_time newnode) following.
Proof.
  revert previous_node.
  induction following as [|f following IH]; intro previous_node; simpl.
  - constructor.
  - destruct (CPU_time newnode <? CPU_time f) eqn:E; [discriminate|].
    destruct (ReadyQueue.scan newnode f following) eqn:El; [discriminate|].
    intros _; constructor; [lia | now apply (IH f)].
Qed.

(** [Puton_queue] links the customer in, whatever the queue; in a queue
    ordered by burst it goes after every customer whose burst is not
    larger and before every customer whose burst is larger. *)
Lemma ReadyQueue_Puton_queue_split (pqueue : ReadyQueue.queue) (pcust : Custs) :
  exists pre post,
    pqueue = pre ++ post /\
    ReadyQueue.Puton_queue pqueue pcust = Some (pre ++ pcust :: post) /\
    (ordered CPU_time pqueue ->
     Forall (fun c => CPU_time c <= CPU_time pcust) pre /\
     Forall (fun c => CPU_time pcust < CPU_time c) post).
Proof.
  destruct pqueue as [|q_head next].
  { exists [], []; repeat split; constructor. }
  unfold ReadyQueue.Puton_queue.
  destruct (CPU_time pcust <? CPU_time q_head) eqn:Ehead.
  { exists [], (q_head :: next); repeat split; [constructor|].
    apply ordered_head_le in H.
    constructor; [lia|].
    eapply Forall_impl; [|exact H]; simpl; intros; lia. }
  destruct (CPU_time pcust >=? CPU_time (last_node q_head next)) eqn:Elast.
  { exists (q_head :: next), []; rewrite app_nil_r; repeat split;
      [|constructor].
    apply ordered_le_last in H.
    eapply Forall_impl; [|exact H]; simpl; intros; lia. }
  destruct (ReadyQueue.scan pcust q_head next) as [linked|] eqn:Escan.
  - destruct (ReadyQueue_scan_found _ _ _ _ Escan)
      as (pre & f & post & -> & -> & Hpre & Hf).
    exists (q_head :: pre), (f :: post); repeat split.
    + constructor; [lia | exact Hpre].
    + change (ordered CPU_time ((q_head :: pre) ++ f :: post)) in H.
      apply ordered_tail, ordered_head_le in H.
      constructor; [exact Hf|].
      eapply Forall_impl; [|exact H]; simpl; intros; lia.
  - exfalso.
    apply ReadyQueue_scan_fails in Escan.
    destruct next as [|b next].
    + unfold last_node in Elast; simpl in Elast; lia.
    + rewrite Forall_forall in Escan.
      assert (Hin : In (last_node q_head (b :: next)) (b :: next))
        by now apply last_node_In_rest.
      specialize (Escan _ Hin); lia.
Qed.

(** ** Reasoning about computations *)

Lemma bind_run {A B} (c : M A) (k : A -> M B) (s s1 : state) (a : A) :
  c s = Some (a, s1) -> bind c k s = k a s1.
Proof. unfold bind; now intros ->. Qed.

Lemma bind_inv {A B} (c : M A) (k : A -> M B) (s s' : state) (b : B) :
  bind c k s = Some (b, s') ->
  exists a s1, c s = Some (a, s1) /\ k a s1 = Some (b, s').
Proof.
  unfold bind; destruct (c s) as [[a s1]|]; [|discriminate].
  intro H; now exists a, s1.
Qed.

Lemma print_nil (s : state) : print [] s = s.
Proof. destruct s; unfold print; simpl; now rewrite app_nil_r. Qed.

Lemma to_long_some (z t : Z) :
  to_long z = Some t -> t = z /\ LONG_MIN <= z <= LONG_MAX.
Proof.
  unfold to_long.
  destruct ((LONG_MIN <=? z) && (z <=? LONG_MAX)) eqn:E; [|discriminate].
  intros [= <-]; apply andb_prop in E; lia.
Qed.

Lemma to_long_in_range (z : Z) :
  LONG_MIN <= z <= LONG_MAX -> to_long z = Some z.
Proof.
  intro H; unfold to_long.
  replace ((LONG_MIN <=? z) && (z <=? LONG_MAX)) with true; [reflexivity|].
  symmetry; apply andb_true_intro; split; lia.
Qed.

(** ** Facts about the variate generator *)

Lemma RAND_MAX_inv : (0 < / IZR RAND_MAX)%R /\ (IZR RAND_MAX * / IZR RAND_MAX = 1)%R.
Proof.
  assert (H : (0 < IZR RAND_MAX)%R) by now apply (IZR_lt 0).
  split; [now apply Rinv_0_lt_compat | apply Rinv_r; lra].
Qed.


Lemma uniform_lt_1 (r : Z) : r < RAND_MAX -> (uniform r < 1)%R.
Proof.
  intro H; apply IZR_lt in H.
  destruct RAND_MAX_inv as [Hi Hm].
  unfold uniform, Rdiv; nra.
Qed.

Lemma uniform_pos (r : Z) : 0 < r -> (0 < uniform r)%R.
Proof.
  intro H; apply IZR_lt in H.
  destruct RAND_MAX_inv as [Hi Hm].
  unfold uniform, Rdiv; nra.
Qed.


Lemma uniform_RAND_MAX : uniform RAND_MAX = 1%R.
Proof. unfold uniform, Rdiv; apply RAND_MAX_inv. Qed.


Lemma ln_negative (x : R) : (0 < x < 1)%R -> (ln x < 0)%R.
Proof.
  intros [H0 H1].
  assert (H : (ln x < ln 1)%R) by (apply ln_increasing; lra).
  now rewrite ln_1 in H.
Qed.





Lemma expon_of_draw_defined (time : R) (r : Z) :
  0 <= r < RAND_MAX ->
  expon_of_draw time r
    = to_long (Zceil (- (100 * time) * ln (1 - uniform r))).
Proof.
  intros [H0 H1]; unfold expon_of_draw.
  pose proof (uniform_lt_1 r H1) as Hu.
  destruct (Rlt_dec 0 (1 - uniform r)) as [_|Hn]; [|lra].
  now rewrite (Rmult_comm time 100).
Qed.


(** ** What the operations on the global state compute *)

Lemma Insert_event_run (etype etime : Z) (custind : option Custs) (s : state) :
  Insert_event etype etime custind s
  = Some (tt, set_top_event
                (Timeline.after_insert etype etime custind (top_event s))
                s).
Proof.
  unfold Insert_event, Timeline.after_insert.
  destruct (Timeline_Insert_event_split etype etime custind (top_event s))
    as (pre & post & _ & -> & _).
  now rewrite print_nil.
Qed.

Lemma Remove_event_run (s : state) (event : event_node)
    (forward : list event_node) :
  top_event s = event :: forward ->
  Remove_event s = Some (Some event, set_top_event forward s).
Proof.
  intro H; unfold Remove_event; rewrite H; simpl; now rewrite print_nil.
Qed.

Lemma Takoff_queue_run (s : state) (index : Custs) (next : list Custs) :
  sjf s = index :: next ->
  Takoff_queue s = Some (Some index, set_sjf next s).
Proof.
  intro H; unfold Takoff_queue; rewrite H; simpl; now rewrite print_nil.
Qed.

Lemma Gen_departure_run (index : Custs) (s : state) :
  LONG_MIN <= CPU_time index + clock s <= LONG_MAX ->
  Gen_departure (Some index) s
  = Some (tt, set_top_event
                (Timeline.after_insert COMPLETE
                        (CPU_time index + clock s) (Some index) (top_event s))
                s).
Proof.
  intro H; unfold Gen_departure.
  rewrite (bind_run _ _ s s (clock s)) by reflexivity.
  rewrite (to_long_in_range _ H).
  rewrite (bind_run _ _ s s (CPU_time index + clock s)) by reflexivity.
  apply Insert_event_run.
Qed.

Lemma start_service_run (s : state) (index : Custs) (next : list Custs) :
  sjf s = index :: next ->
  LONG_MIN <= CPU_time index + clock s <= LONG_MAX ->
  start_service s
  = Some (tt, set_top_event
                (Timeline.after_insert COMPLETE
                        (CPU_time index + clock s) (Some index) (top_event s))
                (set_busy true (set_sjf next s))).
Proof.
  intros Hq H; unfold start_service.
  rewrite (bind_run _ _ _ _ _ (Takoff_queue_run s index next Hq)).
  rewrite (bind_run _ _ _ (set_busy true (set_sjf next s)) tt) by reflexivity.
  now rewrite Gen_departure_run.
Qed.

(** ** What a run of an operation tells about the state it started in *)

Lemma defined_inv {A} (o : option A) (s s' : state) (a : A) :
  defined o s = Some (a, s') -> o = Some a /\ s' = s.
Proof.
  destruct o as [x|]; simpl; [|discriminate].
  unfold ret; intros [= <- <-]; now split.
Qed.

Lemma expon_inv (time : R) (s s' : state) (v : Z) :
  expon time s = Some (v, s') ->
  expon_of_draw time (rand_stream (rand_calls s)) = Some v /\
  s' = set_rand_calls (S (rand_calls s)) s.
Proof.
  unfold expon; intro H.
  apply bind_inv in H as (r & s1 & Hr & H).
  unfold rand in Hr; injection Hr as <- <-.
  apply defined_inv in H as [H ->]; now split.
Qed.

Lemma Gen_arrival_inv (s s' : state) (u : unit) :
  Gen_arrival s = Some (u, s') ->
  exists time,
    expon_of_draw iarrive_time (rand_stream (rand_calls s)) = Some time /\
    LONG_MIN <= clock s + time <= LONG_MAX /\
    s' = set_top_event
           (Timeline.after_insert ARRIVAL (clock s + time)
                   (Some fresh_Custs) (top_event s))
           (set_rand_calls (S (rand_calls s))
              (set_live_custs (live_custs s + 1) s)).
Proof.
  unfold Gen_arrival; intro H.
  apply bind_inv in H as (index & s1 & H1 & H).
  unfold malloc_Custs in H1; injection H1 as <- <-.
  apply bind_inv in H as (time & s2 & H2 & H).
  apply expon_inv in H2 as [Hdraw ->].
  apply bind_inv in H as (clk & s3 & H3 & H).
  unfold gets in H3; injection H3 as <- <-.
  apply bind_inv in H as (etime & s4 & H4 & H).
  apply defined_inv in H4 as [H4 ->].
  apply to_long_some in H4 as [-> Hrange].
  rewrite Insert_event_run in H; injection H as _ <-.
  exists time; repeat split; auto; apply Hrange.
Qed.

Lemma start_service_inv (s s' : state) (u : unit) :
  start_service s = Some (u, s') ->
  exists index next,
    sjf s = index :: next /\
    LONG_MIN <= CPU_time index + clock s <= LONG_MAX /\
    s' = set_top_event
           (Timeline.after_insert COMPLETE (CPU_time index + clock s)
                   (Some index) (top_event s))
           (set_busy true (set_sjf next s)).
Proof.
  unfold start_service; intro H.
  apply bind_inv in H as (index & s1 & H1 & H).
  unfold Takoff_queue in H1.
  destruct (sjf s) as [|c next] eqn:Hq; simpl in H1; injection H1 as <- <-.
  - apply bind_inv in H as (x & s2 & _ & H); discriminate H.
  - rewrite print_nil in H.
    apply bind_inv in H as (x & s2 & H2 & H).
    unfold modify in H2; inversion H2; subst; clear H2.
    unfold Gen_departure in H.
    apply bind_inv in H as (clk & s3 & H3 & H).
    unfold gets in H3; injection H3 as <- <-.
    apply bind_inv in H as (etime & s4 & H4 & H).
    apply defined_inv in H4 as [H4 ->].
    apply to_long_some in H4 as [-> Hrange].
    rewrite Insert_event_run in H; injection H as _ <-.
    exists c, next; repeat split; auto; apply Hrange.
Qed.

Lemma arrive_inv (ev_num : event_node) (s s' : state) (u : unit) :
  arrive ev_num s = Some (u, s') ->
  exists s1 burst q,
    Gen_arrival s = Some (tt, s1) /\
    expon_of_draw service_time (rand_stream (rand_calls s1)) = Some burst /\
    ReadyQueue.Puton_queue (sjf s1) (mkCusts (clock s1) burst) = Some q /\
    (busy s1 = true /\
       s' = set_sjf q (set_rand_calls (S (rand_calls s1)) s1) \/
     busy s1 = false /\
       start_service (set_sjf q (set_rand_calls (S (rand_calls s1)) s1))
       = Some (tt, s')).
Proof.
  unfold arrive; intro H.
  apply bind_inv in H as ([] & s1 & H1 & H).
  destruct (cust_index ev_num) as [index|]; [|discriminate H].
  apply bind_inv in H as (clk & s2 & H2 & H).
  unfold gets in H2; injection H2 as <- <-.
  apply bind_inv in H as (burst & s3 & H3 & H).
  apply expon_inv in H3 as [Hdraw ->].
  apply bind_inv in H as ([] & s4 & H4 & H).
  unfold Puton_queue in H4; simpl sjf in H4; simpl clock in H4.
  destruct (ReadyQueue.Puton_queue (sjf s1) (mkCusts (clock s1) burst))
    as [q|] eqn:Hq; [|discriminate H4].
  injection H4 as <-.
  apply bind_inv in H as (b & s5 & H5 & H).
  unfold gets in H5; injection H5 as <- <-.
  simpl busy in H.
  exists s1, burst, q; repeat split; auto.
  destruct (busy s1); simpl in H.
  - left; split; [reflexivity|]; now injection H as <-.
  - right; split; [reflexivity|]; destruct u; exact H.
Qed.

Lemma depart_inv (ev_num : event_node) (s s' : state) (u : unit) :
  depart ev_num s = Some (u, s') ->
  exists index,
    cust_index ev_num = Some index /\
    LONG_MIN <= clock s - arrive_time index <= LONG_MAX /\
    let idle :=
      set_live_custs (live_custs s - 1)
        (set_num_resp_time (num_resp_time s + 1)
           (set_accum_resp_time
              (accum_resp_time s + IZR (clock s - arrive_time index))
              (set_busy false s))) in
    (sjf s = [] /\ s' = idle \/
     sjf s <> [] /\ start_service idle = Some (tt, s')).
Proof.
  unfold depart; intro H.
  apply bind_inv in H as ([] & s1 & H1 & H).
  unfold modify in H1; inversion H1; subst; clear H1.
  destruct (cust_index ev_num) as [index|]; [|discriminate H].
  apply bind_inv in H as (clk & s2 & H2 & H).
  unfold gets in H2; injection H2 as <- <-.
  apply bind_inv in H as (temp & s3 & H3 & H).
  apply defined_inv in H3 as [H3 ->].
  apply to_long_some in H3 as [-> Hrange].
  apply bind_inv in H as ([] & s4 & H4 & H).
  unfold modify in H4; inversion H4; subst; clear H4.
  apply bind_inv in H as ([] & s5 & H5 & H).
  unfold modify in H5; inversion H5; subst; clear H5.
  apply bind_inv in H as ([] & s6 & H6 & H).
  unfold free_Custs, modify in H6; inversion H6; subst; clear H6.
  apply bind_inv in H as (q & s7 & H7 & H).
  unfold gets in H7; injection H7 as <- <-.
  exists index; split; [reflexivity|]; split; [exact Hrange|].
  simpl in *.
  destruct (sjf s) as [|c next].
  - left; split; [reflexivity|]; now injection H as <-.
  - right; split; [discriminate|]; destruct u; exact H.
Qed.

Lemma main_body_inv (s s' : state) (not_done : bool) :
  main_body s = Some (not_done, s') ->
  exists event forward,
    top_event s = event :: forward /\
    let s1 := set_clock (ev_time event) (set_top_event forward s) in
    (ev_type event = ARRIVAL /\ not_done = true /\
       arrive event s1 = Some (tt, s') \/
     ev_type event = COMPLETE /\ not_done = true /\
       depart event s1 = Some (tt, s') \/
     ev_type event = EOS /\ not_done = false /\
       s' = print [Text "...Simulation ends"; Text " Simulation results";
                   MeanResponse
                     (accum_resp_time s / (100 * num_resp_time s))%R] s1 \/
     (ev_type event <> ARRIVAL /\ ev_type event <> COMPLETE /\
      ev_type event <> EOS) /\ not_done = true /\
       s' = print [Text "***Error - invalid event type"] s1).
Proof.
  unfold main_body; intro H.
  apply bind_inv in H as (event & s1 & H1 & H).
  unfold Remove_event in H1.
  destruct (top_event s) as [|e forward] eqn:Htl; simpl in H1;
    injection H1 as <- <-; [discriminate H|].
  rewrite print_nil in H.
  apply bind_inv in H as ([] & s2 & H2 & H).
  unfold modify in H2; inversion H2; subst; clear H2.
  exists e, forward; split; [reflexivity|]; simpl.
  destruct (ev_type e =? ARRIVAL) eqn:E0.
  { left; split; [lia|].
    apply bind_inv in H as ([] & s3 & H3 & H).
    unfold ret in H; injection H as <- <-; now split. }
  destruct (ev_type e =? COMPLETE) eqn:E1.
  { right; left; split; [lia|].
    apply bind_inv in H as ([] & s3 & H3 & H).
    unfold ret in H; injection H as <- <-; now split. }
  destruct (ev_type e =? EOS) eqn:E2.
  { right; right; left; split; [lia|].
    apply bind_inv in H as ([] & s3 & H3 & H).
    unfold ret in H; injection H as <- <-.
    unfold Process_statistics in H3; inversion H3; subst; now split. }
  right; right; right; split; [repeat split; lia|].
  apply bind_inv in H as ([] & s3 & H3 & H).
  unfold ret in H; injection H as <- <-.
  unfold modify in H3; injection H3 as <-; now split.
Qed.

(** ** The clock and the printed text across operations *)

Lemma Gen_arrival_frame (s s' : state) (u : unit) :
  Gen_arrival s = Some (u, s') ->
  clock s' = clock s /\ out s' = out s /\ sjf s' = sjf s /\ busy s' = busy s.
Proof.
  intro H; apply Gen_arrival_inv in H as (time & _ & _ & ->); now simpl.
Qed.

Lemma start_service_frame (s s' : state) (u : unit) :
  start_service s = Some (u, s') -> clock s' = clock s /\ out s' = out s.
Proof.
  intro H; apply start_service_inv in H as (c & next & _ & _ & ->); now simpl.
Qed.

Lemma arrive_frame (ev_num : event_node) (s s' : state) (u : unit) :
  arrive ev_num s = Some (u, s') -> clock s' = clock s /\ out s' = out s.
Proof.
  intro H; apply arrive_inv in H as (s1 & burst & q & H1 & _ & _ & H).
  apply Gen_arrival_frame in H1 as (Hc & Ho & _).
  destruct H as [[_ ->]|[_ H]]; simpl; [now split|].
  apply start_service_frame in H as [-> ->]; now simpl.
Qed.

Lemma depart_frame (ev_num : event_node) (s s' : state) (u : unit) :
  depart ev_num s = Some (u, s') -> clock s' = clock s /\ out s' = out s.
Proof.
  intro H; apply depart_inv in H as (index & _ & _ & H); simpl in H.
  destruct H as [[_ ->]|[_ H]]; simpl; [now split|].
  apply start_service_frame in H as [-> ->]; now simpl.
Qed.








Lemma main_prologue_inv (s : state) :
  main_prologue loaded = Some (tt, s) ->
  Gen_arrival (mkState [mkEvent EOS sim_length None] [] 0%R 0%R 0 false O 0 [])
  = Some (tt, s).
Proof.
  unfold main_prologue; intro H.
  apply bind_inv in H as ([] & s1 & H1 & H).
  unfold Initialize, modify in H1; inversion H1; subst; clear H1.
  apply bind_inv in H as ([] & s2 & H2 & H).
  rewrite Insert_event_run in H2; inversion H2; subst; clear H2.
  exact H.
Qed.



(** ** Both lists stay ordered over a run *)

Lemma Timeline_Insert_event_ordered (etype etime : Z)
    (custind : option Custs) (tl : Timeline.timeline) :
  ordered ev_time tl ->
  ordered ev_time (Timeline.after_insert etype etime custind tl).
Proof.
  intro Hord.
  destruct (Timeline_after_insert_split etype etime custind tl)
    as (pre & post & E & -> & H).
  destruct (H Hord) as [Hpre Hpost]; subst tl.
  apply ordered_insert; [exact Hord | exact Hpre |].
  eapply Forall_impl; [|exact Hpost]; simpl; intros; lia.
Qed.

Lemma ReadyQueue_Puton_queue_ordered (pqueue q : ReadyQueue.queue)
    (pcust : Custs) :
  ordered CPU_time pqueue ->
  ReadyQueue.Puton_queue pqueue pcust = Some q -> ordered CPU_time q.
Proof.
  intros Hord Hput.
  destruct (ReadyQueue_Puton_queue_split pqueue pcust)
    as (pre & post & E & Eq & H).
  destruct (H Hord) as [Hpre Hpost].
  rewrite Eq in Hput; injection Hput as <-; subst pqueue.
  apply ordered_insert; [exact Hord | exact Hpre |].
  eapply Forall_impl; [|exact Hpost]; simpl; intros; lia.
Qed.

Lemma start_service_ordered (s s' : state) (u : unit) :
  lists_ordered s -> start_service s = Some (u, s') -> lists_ordered s'.
Proof.
  intros [Ht Hq] H.
  apply start_service_inv in H as (c & next & E & _ & ->).
  split; simpl.
  - now apply Timeline_Insert_event_ordered.
  - rewrite E in Hq; now inversion Hq.
Qed.

Lemma arrive_ordered (ev_num : event_node) (s s' : state) (u : unit) :
  lists_ordered s -> arrive ev_num s = Some (u, s') -> lists_ordered s'.
Proof.
  intros [Ht Hq] H.
  apply arrive_inv in H as (s1 & burst & q & H1 & _ & Hput & H).
  apply Gen_arrival_inv in H1 as (time & _ & _ & ->).
  simpl in Hput, H.
  apply (ReadyQueue_Puton_queue_ordered _ _ _ Hq) in Hput.
  assert (H2 : ordered ev_time
                 (Timeline.after_insert ARRIVAL (clock s + time)
                         (Some fresh_Custs) (top_event s)))
    by now apply Timeline_Insert_event_ordered.
  destruct H as [[_ ->]|[_ H]]; [now split|].
  apply start_service_ordered in H; [exact H | now split].
Qed.

Lemma depart_ordered (ev_num : event_node) (s s' : state) (u : unit) :
  lists_ordered s -> depart ev_num s = Some (u, s') -> lists_ordered s'.
Proof.
  intros Hs H.
  apply depart_inv in H as (index & _ & _ & H); simpl in H.
  destruct H as [[_ ->]|[_ H]]; [exact Hs|].
  apply start_service_ordered in H; [exact H | exact Hs].
Qed.

Lemma at_loop_ordered (s : state) : at_loop s -> lists_ordered s.
Proof.
  intro Hs; induction Hs as [s H|s s' _ IH H].
  - apply main_prologue_inv, Gen_arrival_inv in H as (time & _ & _ & ->).
    split; [|constructor].
    apply Timeline_Insert_event_ordered; constructor; constructor.
  - destruct IH as [Ht Hq].
    apply main_body_inv in H as (event & forward & E & H); simpl in H.
    assert (H1 : lists_ordered
                   (set_clock (ev_time event) (set_top_event forward s))).
    { split; simpl; [|exact Hq]. rewrite E in Ht; now inversion Ht. }
    destruct H as [(_ & _ & H)|[(_ & _ & H)|[(_ & E2 & _)|(_ & _ & ->)]]].
    + now apply arrive_ordered in H.
    + now apply depart_ordered in H.
    + discriminate E2.
    + exact H1.
Qed.

(** ** The clock over the turns of the loop *)



(** ** The ready queue: shortest job first *)

(** C1.  On a queue in non-decreasing order of burst, [Puton_queue] links
    the customer in after every customer whose burst is not larger than
    its own (so after those of equal burst) and before every customer of
    larger burst, and the queue stays in non-decreasing order;
    [Takoff_queue] takes the head off, whose burst is the least; and in a
    state whose queue holds two customers of bursts 10 and 2 while the
    server is idle, [start_service] takes the customer of burst 2, sets
    the server busy and schedules that customer's departure.  The queue
    is in non-decreasing order of burst whenever the loop of [main] is
    entered. *)
Theorem ready_queue_shortest_job_first (pqueue : ReadyQueue.queue) :
  ordered CPU_time pqueue ->
  (forall pcust,
     exists pre post,
       pqueue = pre ++ post /\
       ReadyQueue.Puton_queue pqueue pcust = Some (pre ++ pcust :: post) /\
       Forall (fun c => CPU_time c <= CPU_time pcust) pre /\
       Forall (fun c => CPU_time pcust < CPU_time c) post /\
       ordered CPU_time (pre ++ pcust :: post)) /\
  (forall index next,
     pqueue = index :: next ->
     ReadyQueue.Takoff_queue pqueue = (Some index, next, []) /\
     Forall (fun c => CPU_time index <= CPU_time c) next /\
     ordered CPU_time next) /\
  (forall s a b,
     sjf s = pqueue -> Permutation [a; b] pqueue ->
     CPU_time a = 10 -> CPU_time b = 2 -> busy s = false ->
     LONG_MIN <= clock s + 2 <= LONG_MAX ->
     exists pre post,
       top_event s = pre ++ post /\
       start_service s
       = Some (tt, set_top_event
                     (pre ++ mkEvent COMPLETE (clock s + 2) (Some b) :: post)
                     (set_busy true (set_sjf [a] s)))) /\
  (forall t, at_loop t -> ordered CPU_time (sjf t)).
Proof.
  intro Hord; split; [|split; [|split]]; [| | |apply at_loop_ordered].
  - intro pcust.
    destruct (ReadyQueue_Puton_queue_split pqueue pcust)
      as (pre & post & E & Eq & H).
    destruct (H Hord) as [Hpre Hpost].
    exists pre, post; repeat split; auto.
    apply ordered_insert; [now rewrite <- E | exact Hpre |].
    eapply Forall_impl; [|exact Hpost]; simpl; intros; lia.
  - intros index next ->; repeat split.
    + now apply ordered_head_le.
    + now inversion Hord.
  - intros s a b Hq Hperm Ha Hb _ Hrange.
    assert (E : pqueue = [b; a]).
    { apply Permutation_length_2_inv in Hperm as [->| ->]; [|reflexivity].
      apply ordered_head_le in Hord; inversion Hord; subst; lia. }
    rewrite E in Hq.
    destruct (Timeline_after_insert_split COMPLETE (clock s + 2) (Some b)
                (top_event s)) as (pre & post & Et & Eq & _).
    exists pre, post; split; [exact Et|].
    rewrite (start_service_run s b [a] Hq) by (rewrite Hb; lia).
    rewrite Hb, (Z.add_comm 2 (clock s)), Eq; reflexivity.
Qed.

(** ** The event list: time order, first in first out *)

(** C2.  On an event list in non-decreasing order of time, [Insert_event]
    links the new event after every event whose time is not later than its
    own (so after all events of the same time) and before every later one,
    and the list stays in non-decreasing order; [Remove_event] takes the
    head off, which is an earliest event; two events A then B inserted at
    one time t end up with A directly before B, and successive removals
    return A before B.  The event list is in non-decreasing order of time
    whenever the loop of [main] is entered. *)
Theorem Timeline_time_order_first_in_first_out (tl : Timeline.timeline) :
  ordered ev_time tl ->
  (forall etype etime custind,
     exists pre post,
       tl = pre ++ post /\
       Timeline.Insert_event etype etime custind tl
         = Some (pre ++ mkEvent etype etime custind :: post, []) /\
       Forall (fun e => ev_time e <= etime) pre /\
       Forall (fun e => etime < ev_time e) post /\
       ordered ev_time (pre ++ mkEvent etype etime custind :: post)) /\
  (forall ev_ptr forward,
     tl = ev_ptr :: forward ->
     Timeline.Remove_event tl = (Some ev_ptr, forward, []) /\
     Forall (fun e => ev_time ev_ptr <= ev_time e) forward /\
     ordered ev_time forward) /\
  (forall typeA custA typeB custB t,
     exists pre post,
       tl = pre ++ post /\
       Timeline.after_insert typeB t custB
           (Timeline.after_insert typeA t custA tl)
         = pre ++ mkEvent typeA t custA :: mkEvent typeB t custB :: post /\
       Timeline.removal_order (length pre + 2)
           (pre ++ mkEvent typeA t custA :: mkEvent typeB t custB :: post)
         = pre ++ [mkEvent typeA t custA; mkEvent typeB t custB]) /\
  (forall s, at_loop s -> ordered ev_time (top_event s)).
Proof.
  intro Hord.
  assert (Hins : forall etype etime custind,
     exists pre post,
       tl = pre ++ post /\
       Timeline.Insert_event etype etime custind tl
         = Some (pre ++ mkEvent etype etime custind :: post, []) /\
       Forall (fun e => ev_time e <= etime) pre /\
       Forall (fun e => etime < ev_time e) post /\
       ordered ev_time (pre ++ mkEvent etype etime custind :: post)).
  { intros etype etime custind.
    destruct (Timeline_Insert_event_split etype etime custind tl)
      as (pre & post & E & Eq & H).
    destruct (H Hord) as [Hpre Hpost].
    exists pre, post; repeat split; auto.
    apply ordered_insert; [now rewrite <- E | exact Hpre |].
    eapply Forall_impl; [|exact Hpost]; simpl; intros; lia. }
  split; [exact Hins|]; split; [|split; [|apply at_loop_ordered]].
  - intros ev_ptr forward ->; repeat split.
    + now apply ordered_head_le.
    + now inversion Hord.
  - intros typeA custA typeB custB t.
    destruct (Hins typeA t custA) as (pre & post & E & EqA & Hpre & Hpost & HordA).
    exists pre, post; split; [exact E|].
    unfold Timeline.after_insert at 2; rewrite EqA.
    destruct (Timeline_after_insert_split typeB t custB
                (pre ++ mkEvent typeA t custA :: post))
      as (pre' & post' & E' & EqB & H).
    destruct (H HordA) as [Hpre' Hpost'].
    rewrite EqB.
    assert (E2 : (pre ++ [mkEvent typeA t custA]) ++ post = pre' ++ post')
      by (rewrite <- app_assoc; exact E').
    apply (split_unique ev_time t) in E2 as [<- <-]; auto.
    + split; [now rewrite <- app_assoc|].
      rewrite Timeline_removal_order_firstn, firstn_app_2; reflexivity.
    + apply Forall_app; split; [exact Hpre|].
      constructor; [simpl; lia | constructor].
Qed.

(** ** The variate generator *)


(** C4.  The draw [rand() / (float) RAND_MAX] is exactly 1 when [rand()]
    returns [RAND_MAX]: the argument of [log] is then 0 and [expon] has
    no defined result. *)
Theorem uniform_draw_reaches_one :
  uniform RAND_MAX = 1%R /\
  (1 - uniform RAND_MAX)%R = 0%R /\
  (forall time, expon_of_draw time RAND_MAX = None) /\
  (forall time s, rand_stream (rand_calls s) = RAND_MAX ->
                  expon time s = None).
Proof.
  assert (H1 : uniform RAND_MAX = 1%R) by exact uniform_RAND_MAX.
  assert (H2 : forall time, expon_of_draw time RAND_MAX = None).
  { intro time; unfold expon_of_draw; rewrite H1.
    destruct (Rlt_dec 0 (1 - 1)) as [H|_]; [lra | reflexivity]. }
  repeat split; [exact H1 | rewrite H1; lra | exact H2 |].
  intros time s Hs; unfold expon, rand, bind.
  now rewrite Hs, H2.
Qed.

(** ** The search loop of the ready queue *)

(** C5.  On a queue in non-decreasing order of burst, when the new burst
    is not less than the head's and strictly less than the last
    customer's, the search loop of [Puton_queue] stops at a customer of
    the queue ([following_node] is never [NULL]) whose burst is strictly
    larger, after walking over fewer customers than follow the head, and
    links the new customer in before it. *)
Theorem Puton_queue_scan_stops_before_end (q_head : Custs)
    (next : list Custs) (pcust : Custs) :
  ordered CPU_time (q_head :: next) ->
  ~ CPU_time pcust < CPU_time q_head ->
  CPU_time pcust < CPU_time (last_node q_head next) ->
  exists pre following_node post,
    next = pre ++ following_node :: post /\
    ReadyQueue.scan pcust q_head next
      = Some (q_head :: pre ++ pcust :: following_node :: post) /\
    Forall (fun c => CPU_time c <= CPU_time pcust) pre /\
    CPU_time pcust < CPU_time following_node /\
    (length pre < length next)%nat /\
    ReadyQueue.Puton_queue (q_head :: next) pcust
      = Some (q_head :: pre ++ pcust :: following_node :: post).
Proof.
  intros _ Hhead Hlast.
  destruct (ReadyQueue.scan pcust q_head next) as [linked|] eqn:Escan.
  - destruct (ReadyQueue_scan_found _ _ _ _ Escan)
      as (pre & f & post & E & -> & Hpre & Hf).
    exists pre, f, post; repeat split; auto.
    + rewrite E, length_app; simpl; lia.
    + unfold ReadyQueue.Puton_queue.
      replace (CPU_time pcust <? CPU_time q_head) with false by lia.
      replace (CPU_time pcust >=? CPU_time (last_node q_head next))
        with false by lia.
      exact Escan.
  - exfalso.
    apply ReadyQueue_scan_fails in Escan.
    destruct next as [|b next].
    + unfold last_node in Hlast; simpl in Hlast; lia.
    + rewrite Forall_forall in Escan.
      assert (Hin : In (last_node q_head (b :: next)) (b :: next))
        by now apply last_node_In_rest.
      specialize (Escan _ Hin); lia.
Qed.

(** ** Departures *)


(** ** The search loop of the event list *)

(** C7.  On a non-empty event list in non-decreasing order of time whose
    head is not later than the new time and whose last event is strictly
    later, the search loop of [Insert_event] stops at an event strictly
    later than the new time, the new event is linked in before it, and
    nothing is printed: the error branch is not taken. *)
Theorem Insert_event_scan_finds_later_event (top : event_node)
    (rest : list event_node) (etype etime : Z) (custind : option Custs) :
  ordered ev_time (top :: rest) ->
  ~ ev_time top > etime ->
  ev_time (last_node top rest) > etime ->
  exists walked pos forward,
    Timeline.scan etime (top :: rest) = Some (walked, pos :: forward) /\
    ev_time pos > etime /\
    Forall (fun e => ev_time e <= etime) walked /\
    Timeline.Insert_event etype etime custind (top :: rest)
      = Some (walked ++ mkEvent etype etime custind :: pos :: forward, []).
Proof.
  intros _ Htop Hlast.
  destruct (Timeline.scan etime (top :: rest)) as [[walked found]|] eqn:Escan.
  - destruct (Timeline_scan_found _ _ _ _ Escan) as (E & Hw & p & fwd & -> & Hp).
    exists walked, p, fwd; repeat split; [lia | exact Hw |].
    unfold Timeline.Insert_event, Timeline.Insert_event_middle.
    replace (ev_time top >? etime) with false by lia.
    replace (ev_time (last_node top rest) <=? etime) with false by lia.
    simpl ev_time; rewrite Escan.
    destruct walked as [|w walked]; [|reflexivity].
    simpl in E; injection E as -> _; lia.
  - exfalso.
    apply Timeline_scan_fails in Escan.
    rewrite Forall_forall in Escan.
    specialize (Escan _ (last_node_In top rest)); lia.
Qed.


(** ** The clock *)


(** ** The report *)


(** ** Insertion into any list, and sequences of insertions *)

Lemma filter_all_false {A} (f : A -> bool) (l : list A) :
  Forall (fun a => f a = false) l -> filter f l = [].
Proof.
  induction 1 as [|a l Ha _ IH]; simpl; [reflexivity|].
  now rewrite Ha.
Qed.

(** Linking [x] in between the keys not above and the keys above its own
    puts it behind the elements of its own key. *)
Lemma filter_key_insert {A} (key : A -> Z) (pre post : list A) (x : A) (b : Z) :
  Forall (fun a => key a <= key x) pre ->
  Forall (fun a => key x < key a) post ->
  filter (fun a => key a =? b) (pre ++ x :: post)
  = filter (fun a => key a =? b) (pre ++ post)
    ++ (if key x =? b then [x] else []).
Proof.
  intros Hpre Hpost; rewrite !filter_app; simpl.
  destruct (key x =? b) eqn:E.
  - rewrite (filter_all_false (fun a => key a =? b) post).
    + now rewrite !app_nil_r.
    + eapply Forall_impl; [|exact Hpost]; simpl; intros; lia.
  - now rewrite app_nil_r.
Qed.

Lemma event_eta (e : event_node) :
  mkEvent (ev_type e) (ev_time e) (cust_index e) = e.
Proof. now destruct e. Qed.

Lemma Insert_events_stable (evs : list event_node) (tl : Timeline.timeline) :
  ordered ev_time tl ->
  exists tl',
    Insert_events evs tl = Some tl' /\
    ordered ev_time tl' /\
    Permutation tl' (tl ++ evs) /\
    forall t, filter (at_time t) tl'
              = filter (at_time t) tl ++ filter (at_time t) evs.
Proof.
  revert tl; induction evs as [|e evs IH]; intros tl Hord; simpl.
  - exists tl; repeat split; auto.
    + now rewrite app_nil_r.
    + intro t; now rewrite app_nil_r.
  - destruct (Timeline_Insert_event_split (ev_type e) (ev_time e)
                (cust_index e) tl) as (pre & post & E & -> & H).
    destruct (H Hord) as [Hpre Hpost]; rewrite event_eta; subst tl.
    assert (Hord1 : ordered ev_time (pre ++ e :: post)).
    { apply ordered_insert; [exact Hord | exact Hpre |].
      eapply Forall_impl; [|exact Hpost]; simpl; intros; lia. }
    destruct (IH _ Hord1) as (tl' & Hrun & Hord' & Hperm & Hfil).
    exists tl'; repeat split; auto.
    + rewrite Hperm, <- !app_assoc; simpl.
      apply Permutation_app_head, Permutation_middle.
    + intro t; rewrite Hfil; unfold at_time.
      rewrite (filter_key_insert ev_time pre post e t Hpre Hpost).
      rewrite <- app_assoc; f_equal; simpl.
      now destruct (ev_time e =? t).
Qed.

Lemma Puton_customers_stable (custs : list Custs) (pqueue : ReadyQueue.queue) :
  ordered CPU_time pqueue ->
  exists q,
    Puton_customers custs pqueue = Some q /\
    ordered CPU_time q /\
    Permutation q (pqueue ++ custs) /\
    forall b, filter (of_burst b) q
              = filter (of_burst b) pqueue ++ filter (of_burst b) custs.
Proof.
  revert pqueue; induction custs as [|c custs IH]; intros pqueue Hord; simpl.
  - exists pqueue; repeat split; auto.
    + now rewrite app_nil_r.
    + intro b; now rewrite app_nil_r.
  - destruct (ReadyQueue_Puton_queue_split pqueue c)
      as (pre & post & E & -> & H).
    destruct (H Hord) as [Hpre Hpost]; subst pqueue.
    assert (Hord1 : ordered CPU_time (pre ++ c :: post)).
    { apply ordered_insert; [exact Hord | exact Hpre |].
      eapply Forall_impl; [|exact Hpost]; simpl; intros; lia. }
    destruct (IH _ Hord1) as (q & Hrun & Hord' & Hperm & Hfil).
    exists q; repeat split; auto.
    + rewrite Hperm, <- !app_assoc; simpl.
      apply Permutation_app_head, Permutation_middle.
    + intro b; rewrite Hfil; unfold of_burst.
      rewrite (filter_key_insert CPU_time pre post c b Hpre Hpost).
      rewrite <- app_assoc; f_equal; simpl.
      now destruct (CPU_time c =? b).
Qed.

Lemma ReadyQueue_Takoff_after_Puton (pqueue : ReadyQueue.queue) (pcust : Custs) :
  exists q served rest,
    ReadyQueue.Puton_queue pqueue pcust = Some q /\
    ReadyQueue.Takoff_queue q = (Some served, rest, []) /\
    match pqueue with
    | [] => served = pcust /\ rest = []
    | q_head :: next =>
        if CPU_time pcust <? CPU_time q_head
        then served = pcust /\ rest = pqueue
        else served = q_head /\
             exists pre post, next = pre ++ post /\ rest = pre ++ pcust :: post
    end.
Proof.
  destruct pqueue as [|q_head next].
  { exists [pcust], pcust, []; repeat split. }
  unfold ReadyQueue.Puton_queue.
  destruct (CPU_time pcust <? CPU_time q_head) eqn:Ehead.
  { exists (pcust :: q_head :: next), pcust, (q_head :: next); repeat split. }
  destruct (CPU_time pcust >=? CPU_time (last_node q_head next)) eqn:Elast.
  { exists ((q_head :: next) ++ [pcust]), q_head, (next ++ [pcust]).
    repeat split.
    exists next, []; now rewrite app_nil_r. }
  destruct (ReadyQueue.scan pcust q_head next) as [linked|] eqn:Escan.
  - destruct (ReadyQueue_scan_found _ _ _ _ Escan)
      as (pre & f & post & -> & -> & _ & _).
    exists (q_head :: pre ++ pcust :: f :: post), q_head,
           (pre ++ pcust :: f :: post); repeat split.
    now exists pre, (f :: post).
  - exfalso.
    apply ReadyQueue_scan_fails in Escan.
    destruct next as [|b next].
    + unfold last_node in Elast; simpl in Elast; lia.
    + rewrite Forall_forall in Escan.
      assert (Hin : In (last_node q_head (b :: next)) (b :: next))
        by now apply last_node_In_rest.
      specialize (Escan _ Hin); lia.
Qed.

Lemma Timeline_Remove_after_Insert (etype etime : Z) (custind : option Custs)
    (tl : Timeline.timeline) :
  exists tl' first rest,
    Timeline.Insert_event etype etime custind tl = Some (tl', []) /\
    Timeline.Remove_event tl' = (Some first, rest, []) /\
    match tl with
    | [] => first = mkEvent etype etime custind /\ rest = []
    | top :: forward =>
        if ev_time top >? etime
        then first = mkEvent etype etime custind /\ rest = tl
        else first = top /\
             exists pre post,
               forward = pre ++ post /\
               rest = pre ++ mkEvent etype etime custind :: post
    end.
Proof.
  destruct tl as [|top forward].
  { exists [mkEvent etype etime custind], (mkEvent etype etime custind), [].
    repeat split. }
  unfold Timeline.Insert_event.
  destruct (ev_time top >? etime) eqn:Etop.
  { exists (mkEvent etype etime custind :: top :: forward),
           (mkEvent etype etime custind), (top :: forward); repeat split. }
  destruct (ev_time (last_node top forward) <=? etime) eqn:Elast.
  { exists ((top :: forward) ++ [mkEvent etype etime custind]), top,
           (forward ++ [mkEvent etype etime custind]); repeat split.
    exists forward, []; now rewrite app_nil_r. }
  unfold Timeline.Insert_event_middle; simpl ev_time.
  destruct (Timeline.scan etime (top :: forward)) as [[walked pos]|] eqn:Escan.
  - destruct (Timeline_scan_found _ _ _ _ Escan) as (E & _ & p & fwd & -> & Hp).
    destruct walked as [|w walked].
    { simpl in E; injection E as -> _; lia. }
    simpl in E; injection E as <- ->.
    exists (top :: walked ++ mkEvent etype etime custind :: p :: fwd), top,
           (walked ++ mkEvent etype etime custind :: p :: fwd); repeat split.
    now exists walked, (p :: fwd).
  - exfalso.
    apply Timeline_scan_fails in Escan.
    rewrite Forall_forall in Escan.
    specialize (Escan _ (last_node_In top forward)); lia.
Qed.

(** ** The duration grows with the draw *)




(** ** The population of a run *)

Lemma count_events_cons (etype : Z) (e : event_node) (tl : Timeline.timeline) :
  count_events etype (e :: tl)
  = ((if (ev_type e =? etype)%Z then 1 else 0) + count_events etype tl)%nat.
Proof.
  unfold count_events; simpl; now destruct (ev_type e =? etype).
Qed.

Lemma count_events_after_insert (etype' etype etime : Z)
    (custind : option Custs) (tl : Timeline.timeline) :
  count_events etype' (Timeline.after_insert etype etime custind tl)
  = ((if (etype =? etype')%Z then 1 else 0) + count_events etype' tl)%nat.
Proof.
  destruct (Timeline_after_insert_split etype etime custind tl)
    as (pre & post & -> & -> & _).
  unfold count_events; rewrite !filter_app; simpl.
  destruct (etype =? etype'); rewrite !length_app; simpl; lia.
Qed.

Lemma Forall_after_insert (P : event_node -> Prop) (etype etime : Z)
    (custind : option Custs) (tl : Timeline.timeline) :
  Forall P tl -> P (mkEvent etype etime custind) ->
  Forall P (Timeline.after_insert etype etime custind tl).
Proof.
  intros Hall Hnew.
  destruct (Timeline_after_insert_split etype etime custind tl)
    as (pre & post & -> & -> & _).
  apply Forall_app in Hall as [H1 H2].
  apply Forall_app; split; [exact H1 | now constructor].
Qed.

Lemma Puton_queue_length (pqueue q : ReadyQueue.queue) (pcust : Custs) :
  ReadyQueue.Puton_queue pqueue pcust = Some q ->
  length q = S (length pqueue).
Proof.
  destruct (ReadyQueue_Puton_queue_split pqueue pcust)
    as (pre & post & -> & -> & _).
  intros [= <-]; rewrite !length_app; simpl; lia.
Qed.

Lemma event_wf_ARRIVAL (etime : Z) (c : Custs) :
  event_wf (mkEvent ARRIVAL etime (Some c)).
Proof. repeat split; simpl; [now left | discriminate | discriminate]. Qed.

Lemma event_wf_COMPLETE (etime : Z) (c : Custs) :
  event_wf (mkEvent COMPLETE etime (Some c)).
Proof.
  repeat split; simpl; [right; now left | discriminate | discriminate].
Qed.

Lemma count_events_after_insert_same (etype etime : Z)
    (custind : option Custs) (tl : Timeline.timeline) :
  count_events etype (Timeline.after_insert etype etime custind tl)
  = S (count_events etype tl).
Proof. now rewrite count_events_after_insert, Z.eqb_refl. Qed.

Lemma count_events_after_insert_other (etype' etype etime : Z)
    (custind : option Custs) (tl : Timeline.timeline) :
  etype <> etype' ->
  count_events etype' (Timeline.after_insert etype etime custind tl)
  = count_events etype' tl.
Proof.
  intro H; rewrite count_events_after_insert.
  now replace (etype =? etype') with false by lia.
Qed.

Ltac state_fields :=
  cbn [top_event sjf accum_resp_time num_resp_time clock busy rand_calls
       live_custs out set_top_event set_sjf set_accum_resp_time
       set_num_resp_time set_clock set_busy set_rand_calls set_live_custs
       print] in *.

Lemma start_service_shape (s s' : state) (u : unit) :
  Forall event_wf (top_event s) ->
  start_service s = Some (u, s') ->
  Forall event_wf (top_event s') /\
  count_events ARRIVAL (top_event s') = count_events ARRIVAL (top_event s) /\
  count_events EOS (top_event s') = count_events EOS (top_event s) /\
  count_events COMPLETE (top_event s')
  = S (count_events COMPLETE (top_event s)) /\
  S (length (sjf s')) = length (sjf s) /\
  busy s' = true /\ out s' = out s /\ live_custs s' = live_custs s /\
  num_resp_time s' = num_resp_time s /\ rand_calls s' = rand_calls s.
Proof.
  intros Hwf H.
  apply start_service_inv in H as (c & next & E & _ & ->); state_fields.
  repeat split.
  - apply Forall_after_insert; [exact Hwf | apply event_wf_COMPLETE].
  - now apply count_events_after_insert_other.
  - now apply count_events_after_insert_other.
  - apply count_events_after_insert_same.
  - now rewrite E.
Qed.

Lemma main_body_shape (s s' : state) :
  run_shape s -> main_body s = Some (true, s') -> run_shape s'.
Proof.
  intros (Hwf & HA & HE & HC & Hidle & Hout & Hlive & n & Hnum & Hrand) H.
  apply main_body_inv in H as (event & forward & E & H); cbv zeta in H.
  rewrite E in Hwf, HA, HE, HC.
  rewrite count_events_cons in HA, HE, HC.
  inversion Hwf as [|? ? Hev Hfw]; subst.
  destruct Hev as (Hty & Heos & Hcust).
  destruct H as [(Ty & _ & H)|[(Ty & _ & H)|[(_ & Hnd & _)|((T0 & T1 & T2) & _)]]].
  - (* an arrival *)
    rewrite Ty in HA, HE, HC.
    change (ARRIVAL =? ARRIVAL) with true in HA.
    change (ARRIVAL =? EOS) with false in HE.
    change (ARRIVAL =? COMPLETE) with false in HC.
    apply arrive_inv in H as (s1 & burst & q & HGen & _ & Hput & H).
    apply Gen_arrival_inv in HGen as (time & _ & _ & ->).
    state_fields.
    pose proof (Puton_queue_length _ _ _ Hput) as Hlen.
    assert (Hwf1 : Forall event_wf
                     (Timeline.after_insert ARRIVAL (ev_time event + time)
                        (Some fresh_Custs) forward))
      by (apply Forall_after_insert; [exact Hfw | apply event_wf_ARRIVAL]).
    assert (HA1 : count_events ARRIVAL
                    (Timeline.after_insert ARRIVAL (ev_time event + time)
                       (Some fresh_Custs) forward) = 1%nat)
      by (rewrite count_events_after_insert_same; lia).
    assert (HE1 : count_events EOS
                    (Timeline.after_insert ARRIVAL (ev_time event + time)
                       (Some fresh_Custs) forward) = 1%nat)
      by (rewrite count_events_after_insert_other; [lia | discriminate]).
    assert (HC1 : count_events COMPLETE
                    (Timeline.after_insert ARRIVAL (ev_time event + time)
                       (Some fresh_Custs) forward) = in_service s)
      by (rewrite count_events_after_insert_other; [lia | discriminate]).
    destruct H as [[Hb ->]|[Hb H]].
    + unfold run_shape, in_service in *; state_fields; rewrite Hb in *.
      split; [exact Hwf1|]; split; [exact HA1|]; split; [exact HE1|].
      split; [exact HC1|]; split; [discriminate|]; split; [exact Hout|].
      split; [lia|].
      exists n; split; [exact Hnum | lia].
    + apply start_service_shape in H; [|exact Hwf1].
      destruct H as (Hwf' & HA' & HE' & HC' & Hq' & Hb' & Ho' & Hl' & Hn' & Hr').
      state_fields.
      specialize (Hidle Hb); rewrite Hidle in *.
      unfold run_shape, in_service in *; rewrite Hb' , Hb in *.
      cbn [length] in *.
      assert (Hs' : sjf s' = [])
        by (destruct (sjf s'); [reflexivity | cbn [length] in Hq'; lia]).
      rewrite Hs'; cbn [length].
      split; [exact Hwf'|]; split; [lia|]; split; [lia|].
      split; [lia|]; split; [reflexivity|]; split; [congruence|].
      split; [lia|].
      exists n; split; [congruence | lia].
  - (* a completion *)
    rewrite Ty in HA, HE, HC.
    change (COMPLETE =? ARRIVAL) with false in HA.
    change (COMPLETE =? EOS) with false in HE.
    change (COMPLETE =? COMPLETE) with true in HC.
    assert (Hb : busy s = true)
      by (unfold in_service in HC; destruct (busy s); [reflexivity | lia]).
    unfold in_service in HC, Hlive, Hrand; rewrite Hb in HC, Hlive, Hrand.
    apply depart_inv in H as (index & _ & _ & H); cbv zeta in H.
    state_fields.
    destruct H as [[Hq ->]|[Hq H]].
    + unfold run_shape, in_service; state_fields.
      rewrite Hq in *; cbn [length] in *.
      split; [exact Hfw|]; split; [lia|]; split; [lia|].
      split; [lia|]; split; [reflexivity|]; split; [exact Hout|].
      split; [lia|].
      exists (S n); split; [rewrite S_INR, Hnum; reflexivity | lia].
    + apply start_service_shape in H; [|exact Hfw].
      destruct H as (Hwf' & HA' & HE' & HC' & Hq' & Hb' & Ho' & Hl' & Hn' & Hr').
      state_fields.
      unfold run_shape, in_service; rewrite Hb'.
      split; [exact Hwf'|]; split; [lia|]; split; [lia|].
      split; [lia|]; split; [discriminate|]; split; [congruence|].
      split; [lia|].
      exists (S n); split; [rewrite S_INR, Hn', Hnum; reflexivity | lia].
  - discriminate Hnd.
  - exfalso; destruct Hty as [?|[?|?]]; contradiction.
Qed.

Lemma event_wf_EOS : event_wf (mkEvent EOS sim_length None).
Proof.
  repeat split; simpl; [right; now right | intro H; now elim H].
Qed.

Lemma at_loop_run_shape (s : state) : at_loop s -> run_shape s.
Proof.
  intro Hs; induction Hs as [s H|s s' _ IH H].
  - apply main_prologue_inv, Gen_arrival_inv in H as (time & _ & _ & ->).
    unfold run_shape, in_service; state_fields; cbn [length].
    split.
    { apply Forall_after_insert; [|apply event_wf_ARRIVAL].
      constructor; [apply event_wf_EOS | constructor]. }
    split; [now rewrite count_events_after_insert_same|].
    split; [now rewrite count_events_after_insert_other|].
    split; [now rewrite count_events_after_insert_other|].
    split; [reflexivity|]; split; [reflexivity|]; split; [reflexivity|].
    exists 0%nat; split; reflexivity.
  - now apply (main_body_shape s s').
Qed.

(** ** The statistics over a run *)




(** ** The end of the simulation *)

Lemma count_events_In (etype : Z) (tl : Timeline.timeline) :
  (0 < count_events etype tl)%nat ->
  exists e, In e tl /\ ev_type e = etype.
Proof.
  unfold count_events; intro H.
  destruct (filter (fun e => ev_type e =? etype) tl) as [|e l] eqn:E;
    [simpl in H; lia|].
  assert (Hin : In e (filter (fun e => ev_type e =? etype) tl))
    by (rewrite E; now left).
  apply filter_In in Hin as [Hin Hty].
  exists e; split; [exact Hin | lia].
Qed.

(** The head of the list is not later than the end of simulation. *)
Lemma head_before_EOS (s : state) (event : event_node)
    (forward : list event_node) :
  run_shape s -> lists_ordered s ->
  top_event s = event :: forward -> ev_time event <= sim_length.
Proof.
  intros (Hwf & _ & HE & _) [Hord _] E.
  destruct (count_events_In EOS (top_event s)) as (e & Hin & Hty); [lia|].
  rewrite Forall_forall in Hwf.
  destruct (Hwf e Hin) as (_ & Ht & _); specialize (Ht Hty).
  rewrite E in Hin, Hord; destruct Hin as [->|Hin]; [lia|].
  apply ordered_head_le in Hord; rewrite Forall_forall in Hord.
  specialize (Hord e Hin); lia.
Qed.

Lemma main_body_clock (s s' : state) (not_done : bool) :
  main_body s = Some (not_done, s') ->
  exists event forward,
    top_event s = event :: forward /\ clock s' = ev_time event /\
    (not_done = false <-> ev_type event = EOS).
Proof.
  intro H.
  apply main_body_inv in H as (event & forward & E & H); cbv zeta in H.
  exists event, forward; split; [exact E|].
  destruct H as [(Ty & -> & H)|[(Ty & -> & H)|[(Ty & -> & ->)|((T0 & T1 & T2) & -> & ->)]]].
  - apply arrive_frame in H as [-> _]; split; [reflexivity|].
    split; [discriminate | rewrite Ty; discriminate].
  - apply depart_frame in H as [-> _]; split; [reflexivity|].
    split; [discriminate | rewrite Ty; discriminate].
  - split; [reflexivity | now split].
  - split; [reflexivity|]; split; [discriminate | contradiction].
Qed.

Lemma at_loop_clock_le (s : state) :
  0 <= sim_length -> at_loop s -> clock s <= sim_length.
Proof.
  intros Hlen Hs; induction Hs as [s H|s s' Hs IH H].
  - apply main_prologue_inv, Gen_arrival_frame in H as (-> & _); simpl; lia.
  - destruct (main_body_clock s s' true H) as (event & forward & E & -> & _).
    apply (head_before_EOS s event forward);
      [now apply at_loop_run_shape | now apply at_loop_ordered | exact E].
Qed.

(** The loop is left from a state in which it was entered, by the turn
    that removes the end of simulation. *)
Lemma main_loop_exit (fuel : nat) (s s' : state) :
  at_loop s -> main_loop fuel s = Some (true, s') ->
  exists s0, at_loop s0 /\ main_body s0 = Some (false, s').
Proof.
  revert s; induction fuel as [|fuel IH]; intros s Hs H; simpl in H.
  - discriminate H.
  - apply bind_inv in H as (not_done & s1 & Hb & H).
    destruct not_done.
    + apply (IH s1); [now apply (at_loop_next s s1) | exact H].
    + unfold ret in H; injection H as <-.
      now exists s.
Qed.

Lemma main_inv (fuel : nat) (s' : state) (left : bool) :
  main fuel loaded = Some (left, s') ->
  exists s, at_loop s /\ main_loop fuel s = Some (left, s').
Proof.
  unfold main; intro H.
  apply bind_inv in H as ([] & s & Hp & H).
  exists s; split; [now apply at_loop_first | exact H].
Qed.

(** ** What the handlers compute *)

Lemma expon_run (time : R) (s : state) (v : Z) :
  expon_of_draw time (rand_stream (rand_calls s)) = Some v ->
  expon time s = Some (v, set_rand_calls (S (rand_calls s)) s).
Proof.
  intro H; unfold expon, rand, bind; now rewrite H.
Qed.

Lemma Gen_arrival_run (s : state) (time : Z) :
  expon_of_draw iarrive_time (rand_stream (rand_calls s)) = Some time ->
  LONG_MIN <= clock s + time <= LONG_MAX ->
  Gen_arrival s
  = Some (tt, set_top_event
                (Timeline.after_insert ARRIVAL (clock s + time)
                   (Some fresh_Custs) (top_event s))
                (set_rand_calls (S (rand_calls s))
                   (set_live_custs (live_custs s + 1) s))).
Proof.
  intros Hdraw Hrange; unfold Gen_arrival.
  rewrite (bind_run _ _ s (set_live_custs (live_custs s + 1) s) fresh_Custs)
    by reflexivity.
  rewrite (bind_run _ _ _ _ _
             (expon_run iarrive_time
                (set_live_custs (live_custs s + 1) s) time Hdraw)).
  rewrite (bind_run _ _ _
             (set_rand_calls (S (rand_calls s))
                (set_live_custs (live_custs s + 1) s)) (clock s))
    by reflexivity.
  rewrite (to_long_in_range _ Hrange).
  rewrite (bind_run _ _ _
             (set_rand_calls (S (rand_calls s))
                (set_live_custs (live_custs s + 1) s)) (clock s + time))
    by reflexivity.
  now rewrite Insert_event_run.
Qed.

Lemma arrive_run (ev_num : event_node) (s : state) (index : Custs)
    (time burst : Z) (q : ReadyQueue.queue) :
  cust_index ev_num = Some index ->
  expon_of_draw iarrive_time (rand_stream (rand_calls s)) = Some time ->
  LONG_MIN <= clock s + time <= LONG_MAX ->
  expon_of_draw service_time (rand_stream (S (rand_calls s))) = Some burst ->
  ReadyQueue.Puton_queue (sjf s) (mkCusts (clock s) burst) = Some q ->
  arrive ev_num s
  = let queued :=
      set_sjf q
        (set_rand_calls (S (S (rand_calls s)))
           (set_top_event
              (Timeline.after_insert ARRIVAL (clock s + time)
                 (Some fresh_Custs) (top_event s))
              (set_rand_calls (S (rand_calls s))
                 (set_live_custs (live_custs s + 1) s)))) in
    if busy s then Some (tt, queued) else start_service queued.
Proof.
  intros Hc Hd1 Hrange Hd2 Hput; unfold arrive.
  rewrite (bind_run _ _ _ _ _ (Gen_arrival_run s time Hd1 Hrange)).
  rewrite Hc.
  match goal with
  | |- bind _ _ ?s1 = _ =>
      rewrite (bind_run _ _ s1 s1 (clock s)) by reflexivity;
      rewrite (bind_run _ _ s1 (set_rand_calls (S (S (rand_calls s))) s1)
                 burst)
        by (apply expon_run; exact Hd2)
  end.
  unfold Puton_queue at 1; unfold bind at 1.
  state_fields; rewrite Hput.
  unfold bind at 1, gets; state_fields.
  now destruct (busy s).
Qed.

Lemma depart_run (ev_num : event_node) (s : state) (index : Custs) :
  cust_index ev_num = Some index ->
  LONG_MIN <= clock s - arrive_time index <= LONG_MAX ->
  depart ev_num s
  = let idle :=
      set_live_custs (live_custs s - 1)
        (set_num_resp_time (num_resp_time s + 1)
           (set_accum_resp_time
              (accum_resp_time s + IZR (clock s - arrive_time index))
              (set_busy false s))) in
    match sjf s with
    | [] => Some (tt, idle)
    | _ :: _ => start_service idle
    end.
Proof.
  intros Hc Hr; unfold depart.
  rewrite (bind_run _ _ s (set_busy false s) tt) by reflexivity.
  rewrite Hc.
  rewrite (bind_run _ _ _ (set_busy false s) (clock s)) by reflexivity.
  rewrite (to_long_in_range _ Hr).
  rewrite (bind_run _ _ _ (set_busy false s) (clock s - arrive_time index))
    by reflexivity.
  unfold free_Custs; unfold bind, modify, gets, ret; state_fields.
  now destruct (sjf s).
Qed.

Lemma main_body_run (s : state) (event : event_node)
    (forward : list event_node) :
  top_event s = event :: forward ->
  main_body s
  = let s1 := set_clock (ev_time event) (set_top_event forward s) in
    if ev_type event =? ARRIVAL
    then match arrive event s1 with
         | Some (_, s') => Some (true, s')
         | None => None
         end
    else if ev_type event =? COMPLETE
    then match depart event s1 with
         | Some (_, s') => Some (true, s')
         | None => None
         end
    else if ev_type event =? EOS
    then Some (false,
               print [Text "...Simulation ends"; Text " Simulation results";
                      MeanResponse
                        (accum_resp_time s / (100 * num_resp_time s))%R] s1)
    else Some (true, print [Text "***Error - invalid event type"] s1).
Proof.
  intro E; unfold main_body.
  rewrite (bind_run _ _ _ _ _ (Remove_event_run s event forward E)).
  rewrite (bind_run _ _ _ (set_clock (ev_time event) (set_top_event forward s))
             tt) by reflexivity.
  cbv zeta.
  destruct (ev_type event =? ARRIVAL).
  { unfold bind at 1.
    now destruct (arrive event _) as [[[] s']|]. }
  destruct (ev_type event =? COMPLETE).
  { unfold bind at 1.
    now destruct (depart event _) as [[[] s']|]. }
  destruct (ev_type event =? EOS); reflexivity.
Qed.

(** ** Every turn of the loop has a result *)





(** ** Every turn of the loop brings the end nearer *)




Lemma main_prologue_run (time : Z) :
  expon_of_draw iarrive_time (rand_stream O) = Some time ->
  LONG_MIN <= time <= LONG_MAX ->
  main_prologue loaded
  = Some (tt, mkState (Timeline.after_insert ARRIVAL time (Some fresh_Custs)
                         [mkEvent EOS sim_length None])
                      [] 0%R 0%R 0 false 1 1 []).
Proof.
  intros Hdraw Hrange; unfold main_prologue.
  rewrite (bind_run _ _ loaded loaded tt) by reflexivity.
  rewrite (bind_run _ _ loaded
             (mkState [mkEvent EOS sim_length None] [] 0%R 0%R 0 false O 0 [])
             tt) by reflexivity.
  now rewrite (Gen_arrival_run
                 (mkState [mkEvent EOS sim_length None] [] 0%R 0%R 0 false O
                          0 [])
                 time Hdraw Hrange).
Qed.

(** ** Draws that never let the simulation end *)







(** ** A draw that gives the least duration *)

Lemma ln_ge_1_minus_inv (x : R) : (0 < x)%R -> (1 - / x <= ln x)%R.
Proof.
  intro Hx.
  assert (Hi : (0 < / x)%R) by now apply Rinv_0_lt_compat.
  pose proof (exp_ineq1_le (ln (/ x))) as H.
  rewrite exp_ln in H by exact Hi.
  rewrite ln_Rinv in H by exact Hx.
  lra.
Qed.

Lemma expon_of_draw_one (mean : R) (r : Z) :
  (0 < mean)%R -> 0 < r < RAND_MAX ->
  (100 * mean * IZR r <= IZR (RAND_MAX - r))%R ->
  1 <= LONG_MAX ->
  expon_of_draw mean r = Some 1.
Proof.
  intros Hmean [H0 H1] Hsmall Hmax.
  rewrite expon_of_draw_defined by lia.
  rewrite <- (to_long_in_range 1) by (unfold LONG_MIN; lia).
  f_equal; apply Zceil_eq.
  pose proof (uniform_pos r H0) as Hu0.
  pose proof (uniform_lt_1 r H1) as Hu1.
  assert (Hl : (ln (1 - uniform r) < 0)%R) by (apply ln_negative; lra).
  assert (Hg : (1 - / (1 - uniform r) <= ln (1 - uniform r))%R)
    by (apply ln_ge_1_minus_inv; lra).
  assert (Hr : (IZR (RAND_MAX - r) = IZR RAND_MAX * (1 - uniform r))%R).
  { rewrite minus_IZR; unfold uniform, Rdiv.
    destruct RAND_MAX_inv as [_ Hm].
    assert (Hne : (IZR RAND_MAX <> 0)%R)
      by (apply not_0_IZR; lia).
    field; exact Hne. }
  assert (Hru : (IZR r = IZR RAND_MAX * uniform r)%R).
  { unfold uniform, Rdiv.
    assert (Hne : (IZR RAND_MAX <> 0)%R) by (apply not_0_IZR; lia).
    field; exact Hne. }
  assert (HM : (0 < IZR RAND_MAX)%R) by (apply (IZR_lt 0); lia).
  assert (Hi : (0 < / (1 - uniform r))%R)
    by (apply Rinv_0_lt_compat; lra).
  assert (Hii : ((1 - uniform r) * / (1 - uniform r) = 1)%R)
    by (apply Rinv_r; lra).
  rewrite Hr, Hru in Hsmall.
  assert (Hs2 : (100 * mean * uniform r <= 1 - uniform r)%R) by nra.
  assert (Hs3 : (100 * mean * (/ (1 - uniform r) - 1) <= 1)%R).
  { assert (He : (/ (1 - uniform r) - 1
                  = uniform r * / (1 - uniform r))%R) by nra.
    rewrite He.
    assert (Hp : (100 * mean * uniform r * / (1 - uniform r)
                  <= (1 - uniform r) * / (1 - uniform r))%R)
      by (apply Rmult_le_compat_r; lra).
    nra. }
  simpl; split; nra.
Qed.

(** ** Where a run stops *)

Lemma main_loop_running (fuel : nat) (s s' : state) :
  at_loop s -> main_loop fuel s = Some (false, s') -> at_loop s'.
Proof.
  revert s; induction fuel as [|fuel IH]; intros s Hs H; simpl in H.
  - unfold ret in H; now injection H as <-.
  - apply bind_inv in H as (not_done & s1 & Hb & H).
    destruct not_done; [|discriminate H].
    apply (IH s1); [now apply (at_loop_next s s1) | exact H].
Qed.

(** [main] stops short of fuel where the loop is entered, or else behind
    the turn that removed the end of simulation. *)
Lemma main_stops (fuel : nat) (s' : state) (left : bool) :
  main fuel loaded = Some (left, s') ->
  if left
  then exists s0 event forward,
         at_loop s0 /\ top_event s0 = event :: forward /\
         ev_type event = EOS /\
         s' = print [Text "...Simulation ends"; Text " Simulation results";
                     MeanResponse
                       (accum_resp_time s0 / (100 * num_resp_time s0))%R]
                    (set_clock (ev_time event) (set_top_event forward s0))
  else at_loop s'.
Proof.
  intro H; apply main_inv in H as (s & Hs & H).
  destruct left; [|now apply (main_loop_running fuel s)].
  apply main_loop_exit in H as (s0 & Hs0 & H); [|exact Hs].
  apply main_body_inv in H as (event & forward & E & H); cbv zeta in H.
  exists s0, event, forward; split; [exact Hs0|]; split; [exact E|].
  destruct H as [(_ & Hnd & _)|[(_ & Hnd & _)|[(Ty & _ & ->)|(_ & Hnd & _)]]];
    try discriminate Hnd.
  now split.
Qed.

Lemma length_count_events (tl : Timeline.timeline) :
  Forall event_wf tl ->
  length tl = (count_events ARRIVAL tl + count_events COMPLETE tl
               + count_events EOS tl)%nat.
Proof.
  induction 1 as [|e tl (Hty & _) _ IH]; [reflexivity|].
  rewrite !count_events_cons; cbn [length]; rewrite IH.
  destruct Hty as [Ty|[Ty|Ty]]; rewrite Ty.
  - change (ARRIVAL =? ARRIVAL) with true;
      change (ARRIVAL =? COMPLETE) with false;
      change (ARRIVAL =? EOS) with false; cbv iota; lia.
  - change (COMPLETE =? ARRIVAL) with false;
      change (COMPLETE =? COMPLETE) with true;
      change (COMPLETE =? EOS) with false; cbv iota; lia.
  - change (EOS =? ARRIVAL) with false;
      change (EOS =? COMPLETE) with false;
      change (EOS =? EOS) with true; cbv iota; lia.
Qed.

(** A first arrival not before the end of simulation: the end of
    simulation is the first event removed. *)
Lemma main_empty_run (fuel : nat) (time : Z) :
  expon_of_draw iarrive_time (rand_stream O) = Some time ->
  LONG_MIN <= time <= LONG_MAX ->
  sim_length <= time ->
  main (S fuel) loaded
  = Some (true,
          mkState [mkEvent ARRIVAL time (Some fresh_Custs)] [] 0%R 0%R
                  sim_length false 1 1
                  [Text "...Simulation ends"; Text " Simulation results";
                   MeanResponse (0 / (100 * 0))%R]).
Proof.
  intros Hdraw Hrange Hlate; unfold main.
  rewrite (bind_run _ _ _ _ _ (main_prologue_run time Hdraw Hrange)).
  assert (E : Timeline.after_insert ARRIVAL time (Some fresh_Custs)
                [mkEvent EOS sim_length None]
              = [mkEvent EOS sim_length None;
                 mkEvent ARRIVAL time (Some fresh_Custs)]).
  { unfold Timeline.after_insert, Timeline.Insert_event, last_node.
    cbn [ev_time last].
    replace (sim_length >? time) with false by lia.
    now replace (sim_length <=? time) with true by lia. }
  rewrite E; reflexivity.
Qed.

(** ** Further properties of the program *)

(** X1.  [arrive], for an event that carries a customer and draws whose
    durations are defined: the next arrival is scheduled at clock +
    interarrival with a fresh record, the customer is stamped with the
    clock and the burst of the second draw; on a busy server it is linked
    into the queue behind the bursts not larger than its own, and on an
    idle server with nobody waiting it is put in service at once, its
    completion scheduled at clock + burst. *)
Theorem arrive_processes_arrival (ev_num : event_node) (s : state)
    (index : Custs) (time burst : Z) :
  cust_index ev_num = Some index ->
  expon_of_draw iarrive_time (rand_stream (rand_calls s)) = Some time ->
  LONG_MIN <= clock s + time <= LONG_MAX ->
  expon_of_draw service_time (rand_stream (S (rand_calls s))) = Some burst ->
  let arrived := mkCusts (clock s) burst in
  let scheduled :=
    set_rand_calls (S (S (rand_calls s)))
      (set_top_event
         (Timeline.after_insert ARRIVAL (clock s + time) (Some fresh_Custs)
            (top_event s))
         (set_live_custs (live_custs s + 1) s)) in
  (busy s = true ->
   exists pre post,
     sjf s = pre ++ post /\
     arrive ev_num s = Some (tt, set_sjf (pre ++ arrived :: post) scheduled) /\
     (ordered CPU_time (sjf s) ->
      Forall (fun c => CPU_time c <= burst) pre /\
      Forall (fun c => burst < CPU_time c) post)) /\
  (busy s = false -> sjf s = [] ->
   LONG_MIN <= clock s + burst <= LONG_MAX ->
   arrive ev_num s
   = Some (tt, set_top_event
                 (Timeline.after_insert COMPLETE (clock s + burst)
                    (Some arrived) (top_event scheduled))
                 (set_busy true (set_sjf [] scheduled)))).
Proof.
  intros Hc Hd1 Hrange Hd2 arrived scheduled; split.
  - intro Hb.
    destruct (ReadyQueue_Puton_queue_split (sjf s) arrived)
      as (pre & post & E & Eput & Hord).
    exists pre, post; split; [exact E|]; split; [|exact Hord].
    rewrite (arrive_run ev_num s index time burst _ Hc Hd1 Hrange Hd2 Eput).
    cbv zeta; now rewrite Hb.
  - intros Hb Hq Hr2.
    assert (Eput : ReadyQueue.Puton_queue (sjf s) arrived = Some [arrived])
      by now rewrite Hq.
    rewrite (arrive_run ev_num s index time burst _ Hc Hd1 Hrange Hd2 Eput).
    cbv zeta; rewrite Hb.
    erewrite start_service_run; [|reflexivity|].
    + unfold arrived; state_fields; cbn [CPU_time].
      now rewrite (Z.add_comm burst).
    + unfold arrived; state_fields; cbn [CPU_time]; lia.
Qed.

(** X2.  Whenever the loop of [main] is entered the server is busy
    exactly when one completion is pending, no completion is pending
    while it is idle, and nobody waits while it is idle. *)
Theorem server_busy_iff_completion_pending (s : state) :
  at_loop s ->
  count_events COMPLETE (top_event s) = (if busy s then 1 else 0)%nat /\
  (busy s = false -> sjf s = []).
Proof.
  intro Hs.
  destruct (at_loop_run_shape s Hs) as (_ & _ & _ & HC & Hidle & _).
  split; [exact HC | exact Hidle].
Qed.

(** X3.  Whenever the loop of [main] is entered the event list holds
    exactly one arrival and exactly one end of simulation, at
    [sim_length], and besides them only the completion of the customer in
    service: two events or three, each of a valid type, arrivals and
    completions with their customer.  So [Remove_event] never finds the
    list empty. *)
Theorem pending_events_of_a_run (s : state) :
  at_loop s ->
  count_events ARRIVAL (top_event s) = 1%nat /\
  count_events EOS (top_event s) = 1%nat /\
  length (top_event s) = (2 + (if busy s then 1 else 0))%nat /\
  Forall event_wf (top_event s) /\
  exists event forward,
    Timeline.Remove_event (top_event s) = (Some event, forward, []).
Proof.
  intro Hs.
  destruct (at_loop_run_shape s Hs) as (Hwf & HA & HE & HC & _).
  pose proof (length_count_events _ Hwf) as Hlen.
  unfold in_service in HC.
  split; [exact HA|]; split; [exact HE|]; split; [lia|]; split; [exact Hwf|].
  destruct (top_event s) as [|event forward]; [simpl in Hlen; lia|].
  now exists event, forward.
Qed.


(** X5.  Wherever a run stops, the customer records allocated and not
    freed are the one of the pending arrival, those of the customers
    waiting and the one of the customer in service: [depart] frees each
    record once, and at the end of simulation the records left are still
    allocated. *)
Theorem customer_records_accounted_for (fuel : nat) (s : state)
    (left : bool) :
  main fuel loaded = Some (left, s) ->
  live_custs s
  = 1 + Z.of_nat (length (sjf s)) + (if busy s then 1 else 0).
Proof.
  intro H; apply main_stops in H.
  assert (Hshape : forall t, at_loop t ->
            live_custs t
            = 1 + Z.of_nat (length (sjf t)) + (if busy t then 1 else 0)).
  { intros t Ht.
    destruct (at_loop_run_shape t Ht) as (_ & _ & _ & _ & _ & _ & Hl & _).
    rewrite Hl; unfold in_service; now destruct (busy t). }
  destruct left; [|now apply Hshape].
  destruct H as (s0 & event & forward & Hs0 & _ & _ & ->).
  state_fields; now apply Hshape.
Qed.



(** X8.  Whatever the order of the event list, [Insert_event] links the
    new event in between two parts of the list it leaves as they were and
    prints nothing: it never takes its error branch, never writes through
    a [NULL] link, never loses or repeats an event. *)
Theorem Insert_event_links_into_any_list (etype etime : Z)
    (custind : option Custs) (tl : Timeline.timeline) :
  exists pre post,
    tl = pre ++ post /\
    Timeline.Insert_event etype etime custind tl
    = Some (pre ++ mkEvent etype etime custind :: post, []) /\
    Permutation (pre ++ mkEvent etype etime custind :: post)
                (mkEvent etype etime custind :: tl).
Proof.
  destruct (Timeline_Insert_event_split etype etime custind tl)
    as (pre & post & E & Eq & _).
  exists pre, post; split; [exact E|]; split; [exact Eq|].
  rewrite E; symmetry; apply Permutation_middle.
Qed.

(** X9.  Whatever the order of the queue, [Puton_queue] links the
    customer in between two parts of the queue it leaves as they were:
    its search loop never reads through [following_node == NULL], and no
    customer is lost or repeated. *)
Theorem Puton_queue_links_into_any_queue (pqueue : ReadyQueue.queue)
    (pcust : Custs) :
  exists pre post,
    pqueue = pre ++ post /\
    ReadyQueue.Puton_queue pqueue pcust = Some (pre ++ pcust :: post) /\
    Permutation (pre ++ pcust :: post) (pcust :: pqueue).
Proof.
  destruct (ReadyQueue_Puton_queue_split pqueue pcust)
    as (pre & post & E & Eq & _).
  exists pre, post; split; [exact E|]; split; [exact Eq|].
  rewrite E; symmetry; apply Permutation_middle.
Qed.

(** X10.  Whatever customers are put one after the other on a queue
    that is in non-decreasing order of burst, the queue stays in
    non-decreasing order and holds the old and the new customers, those
    of any one burst in the order they were in and were put on:
    [Puton_queue] sorts stably. *)
Theorem Puton_queue_sorts_stably (custs : list Custs)
    (pqueue : ReadyQueue.queue) :
  ordered CPU_time pqueue ->
  exists q,
    Puton_customers custs pqueue = Some q /\
    ordered CPU_time q /\
    Permutation q (pqueue ++ custs) /\
    forall b, filter (of_burst b) q
              = filter (of_burst b) pqueue ++ filter (of_burst b) custs.
Proof. apply Puton_customers_stable. Qed.

(** X11.  Whatever events are inserted one after the other into an
    event list that is in non-decreasing order of time, the list stays in
    non-decreasing order and holds the old and the new events, those of
    any one time in the order they were in and were inserted;
    [Remove_event] then returns the events in the order of the list. *)
Theorem Insert_event_sorts_stably (evs : list event_node)
    (tl : Timeline.timeline) :
  ordered ev_time tl ->
  exists tl',
    Insert_events evs tl = Some tl' /\
    ordered ev_time tl' /\
    Permutation tl' (tl ++ evs) /\
    (forall t, filter (at_time t) tl'
               = filter (at_time t) tl ++ filter (at_time t) evs) /\
    Timeline.removal_order (length tl') tl' = tl'.
Proof.
  intro Hord.
  destruct (Insert_events_stable evs tl Hord) as (tl' & H1 & H2 & H3 & H4).
  exists tl'; repeat split; auto.
  rewrite Timeline_removal_order_firstn; apply firstn_all.
Qed.

(** X12.  [Takoff_queue] after [Puton_queue] returns the new customer
    exactly when the queue was empty or the new burst is strictly less
    than the old head's, and then leaves the queue as it was; otherwise
    it returns the old head and leaves the rest with the new customer
    linked in. *)
Theorem Takoff_queue_after_Puton_queue (pqueue : ReadyQueue.queue)
    (pcust : Custs) :
  exists q served rest,
    ReadyQueue.Puton_queue pqueue pcust = Some q /\
    ReadyQueue.Takoff_queue q = (Some served, rest, []) /\
    match pqueue with
    | [] => served = pcust /\ rest = []
    | q_head :: next =>
        if CPU_time pcust <? CPU_time q_head
        then served = pcust /\ rest = pqueue
        else served = q_head /\
             exists pre post, next = pre ++ post /\ rest = pre ++ pcust :: post
    end.
Proof. apply ReadyQueue_Takoff_after_Puton. Qed.

(** X13.  [Remove_event] after [Insert_event] returns the new event
    exactly when the list was empty or the new time is strictly earlier
    than the old head's, and then leaves the list as it was; otherwise it
    returns the old head and leaves the rest with the new event linked
    in. *)
Theorem Remove_event_after_Insert_event (etype etime : Z)
    (custind : option Custs) (tl : Timeline.timeline) :
  exists tl' first rest,
    Timeline.Insert_event etype etime custind tl = Some (tl', []) /\
    Timeline.Remove_event tl' = (Some first, rest, []) /\
    match tl with
    | [] => first = mkEvent etype etime custind /\ rest = []
    | top :: forward =>
        if ev_time top >? etime
        then first = mkEvent etype etime custind /\ rest = tl
        else first = top /\
             exists pre post,
               forward = pre ++ post /\
               rest = pre ++ mkEvent etype etime custind :: post
    end.
Proof. apply Timeline_Remove_after_Insert. Qed.


(** X15.  With a length that is not negative the clock never passes
    [sim_length], wherever a run stops, and a run that leaves the loop
    stops with the clock at [sim_length]. *)
Theorem clock_stops_at_sim_length (fuel : nat) (s : state) (left : bool) :
  0 <= sim_length ->
  main fuel loaded = Some (left, s) ->
  clock s <= sim_length /\ (left = true -> clock s = sim_length).
Proof.
  intros Hlen H; apply main_stops in H; destruct left.
  - destruct H as (s0 & event & forward & Hs0 & E & Ty & ->).
    destruct (at_loop_run_shape s0 Hs0) as (Hwf & _).
    rewrite E in Hwf; inversion Hwf as [|? ? (_ & Ht & _) _]; subst.
    state_fields; rewrite (Ht Ty); split; [lia | reflexivity].
  - split; [now apply at_loop_clock_le | discriminate].
Qed.





(** ** Bounds on the mean response time *)





(** X21.  The handlers do not guard against [NULL]: after the underflow
    diagnostic of [Remove_event], [main] reads the time of the event it
    did not get; after the one of [Takoff_queue], [start_service] has
    [Gen_departure] read the burst of the customer it did not get; and
    [arrive] and [depart] read through the customer link of an event that
    carries none.  None of them has a defined result. *)
Theorem NULL_is_not_guarded_against (s : state) (ev_num : event_node) :
  (top_event s = [] -> main_body s = None) /\
  (sjf s = [] -> start_service s = None) /\
  (cust_index ev_num = None ->
   arrive ev_num s = None /\ depart ev_num s = None).
Proof.
  split; [|split].
  - intro E; unfold main_body, Remove_event, bind, gets.
    now rewrite E.
  - intro E; unfold start_service, Takoff_queue, bind, gets.
    now rewrite E.
  - intro E; split.
    + unfold arrive, bind; rewrite E.
      now destruct (Gen_arrival s) as [[[] s1]|].
    + unfold depart, bind, modify; now rewrite E.
Qed.

End Simulation.

(** ** The contents of fresh storage *)

Section Storage.

Variable RAND_MAX : Z.
Variable LONG_MAX : Z.
Variable fresh_Custs : Custs.
Variable other_Custs : Custs.
Variable iarrive_time : R.
Variable service_time : R.
Variable sim_length : Z.
Variable rand_stream : nat -> Z.

Lemma ev_time_redraw (e : event_node) :
  ev_time (redraw other_Custs e) = ev_time e.
Proof. unfold redraw; now destruct (ev_type e =? ARRIVAL). Qed.

Lemma ev_type_redraw (e : event_node) :
  ev_type (redraw other_Custs e) = ev_type e.
Proof. unfold redraw; now destruct (ev_type e =? ARRIVAL). Qed.

Lemma last_map_default {A B} (f : A -> B) (l : list A) (d : A) :
  last (map f l) (f d) = f (last l d).
Proof.
  revert d; induction l as [|a l IH]; intro d; [reflexivity|].
  cbn [map]; rewrite !last_cons; apply IH.
Qed.

Lemma Timeline_scan_redraw (etime : Z) (tl : Timeline.timeline) :
  Timeline.scan etime (map (redraw other_Custs) tl)
  = match Timeline.scan etime tl with
    | Some (walked, found) =>
        Some (map (redraw other_Custs) walked,
              map (redraw other_Custs) found)
    | None => None
    end.
Proof.
  induction tl as [|p forward IH]; [reflexivity|].
  cbn [map Timeline.scan]; rewrite ev_time_redraw.
  destruct (ev_time p >? etime); [reflexivity|].
  rewrite IH; now destruct (Timeline.scan etime forward) as [[w f]|].
Qed.

Lemma Timeline_Insert_event_redraw (etype etime : Z)
    (c1 c2 : option Custs) (tl : Timeline.timeline) :
  redraw other_Custs (mkEvent etype etime c1) = mkEvent etype etime c2 ->
  Timeline.Insert_event etype etime c2 (map (redraw other_Custs) tl)
  = match Timeline.Insert_event etype etime c1 tl with
    | Some (tl', o) => Some (map (redraw other_Custs) tl', o)
    | None => None
    end.
Proof.
  intro Hloc; unfold Timeline.Insert_event; cbv zeta.
  destruct tl as [|top rest]; [cbn [map]; now rewrite Hloc|].
  cbn [map]; rewrite ev_time_redraw.
  destruct (ev_time top >? etime); [cbn [map]; now rewrite Hloc|].
  unfold last_node; rewrite last_map_default, ev_time_redraw.
  change (redraw other_Custs top :: map (redraw other_Custs) rest)
    with (map (redraw other_Custs) (top :: rest)).
  destruct (ev_time (last rest top) <=? etime).
  - now rewrite map_app, <- Hloc.
  - unfold Timeline.Insert_event_middle; cbn [ev_time].
    rewrite Timeline_scan_redraw.
    destruct (Timeline.scan etime (top :: rest)) as [[[|w0 w] found]|];
      [reflexivity | | reflexivity].
    cbn [map]; now rewrite map_app, <- Hloc.
Qed.

(** *** Computations *)

Lemma commutes_bind {A B} (f : A -> A) (g : B -> B) (c1 c2 : M A)
    (k1 k2 : A -> M B) :
  commutes other_Custs f c1 c2 ->
  (forall a, commutes other_Custs g (k1 a) (k2 (f a))) ->
  commutes other_Custs g (bind c1 k1) (bind c2 k2).
Proof.
  intros Hc Hk s; unfold bind.
  rewrite (Hc s); destruct (c1 s) as [[a s1]|]; [apply Hk | reflexivity].
Qed.

Lemma commutes_ret {A} (f : A -> A) (a : A) :
  commutes other_Custs f (ret a) (ret (f a)).
Proof. intro s; reflexivity. Qed.

Lemma commutes_undefined {A} (f : A -> A) :
  commutes other_Custs f undefined undefined.
Proof. intro s; reflexivity. Qed.

Lemma commutes_defined {A} (o : option A) :
  commutes other_Custs (fun a => a) (defined o) (defined o).
Proof. destruct o; intro s; reflexivity. Qed.

Lemma commutes_gets {A} (field : state -> A) :
  (forall s, field (refresh other_Custs s) = field s) ->
  commutes other_Custs (fun a => a) (gets field) (gets field).
Proof. intros H s; unfold gets; now rewrite H. Qed.

Lemma commutes_modify (change_state : state -> state) :
  (forall s, change_state (refresh other_Custs s)
             = refresh other_Custs (change_state s)) ->
  commutes other_Custs (fun u => u) (modify change_state)
           (modify change_state).
Proof. intros H s; unfold modify; now rewrite H. Qed.

Lemma Insert_event_commutes (etype etime : Z) (c1 c2 : option Custs) :
  redraw other_Custs (mkEvent etype etime c1) = mkEvent etype etime c2 ->
  commutes other_Custs (fun u => u) (Insert_event etype etime c1)
           (Insert_event etype etime c2).
Proof.
  intros Hloc s; unfold Insert_event, refresh; cbn [top_event set_top_event].
  rewrite (Timeline_Insert_event_redraw etype etime c1 c2 _ Hloc).
  now destruct (Timeline.Insert_event etype etime c1 (top_event s))
    as [[tl o]|].
Qed.

Lemma Remove_event_commutes :
  commutes other_Custs (option_map (redraw other_Custs))
           Remove_event Remove_event.
Proof.
  intro s; unfold Remove_event, refresh; cbn [top_event set_top_event].
  now destruct (top_event s) as [|ev_ptr forward].
Qed.

Lemma Puton_queue_commutes (pcust : Custs) :
  commutes other_Custs (fun u => u) (Puton_queue pcust) (Puton_queue pcust).
Proof.
  intro s; unfold Puton_queue, refresh; cbn [sjf set_top_event].
  now destruct (ReadyQueue.Puton_queue (sjf s) pcust).
Qed.

Lemma Takoff_queue_commutes :
  commutes other_Custs (fun index => index) Takoff_queue Takoff_queue.
Proof.
  intro s; unfold Takoff_queue, refresh; cbn [sjf set_top_event].
  now destruct (sjf s).
Qed.

Lemma expon_commutes (time : R) :
  commutes other_Custs (fun v => v)
           (expon RAND_MAX LONG_MAX rand_stream time)
           (expon RAND_MAX LONG_MAX rand_stream time).
Proof.
  unfold expon; eapply commutes_bind; [|intro r; apply commutes_defined].
  intro s; reflexivity.
Qed.

Lemma Gen_arrival_commutes :
  commutes other_Custs (fun u => u)
    (Gen_arrival RAND_MAX LONG_MAX fresh_Custs iarrive_time rand_stream)
    (Gen_arrival RAND_MAX LONG_MAX other_Custs iarrive_time rand_stream).
Proof.
  unfold Gen_arrival.
  apply (commutes_bind (fun _ => other_Custs)); [intro s; reflexivity|].
  intro index.
  apply (commutes_bind (fun v => v)); [apply expon_commutes|]; intro time.
  apply (commutes_bind (fun v => v)); [now apply commutes_gets|]; intro clk.
  apply (commutes_bind (fun v => v)); [apply commutes_defined|]; intro etime.
  now apply Insert_event_commutes.
Qed.

Lemma Gen_departure_commutes (index : option Custs) :
  commutes other_Custs (fun u => u)
    (Gen_departure LONG_MAX index) (Gen_departure LONG_MAX index).
Proof.
  unfold Gen_departure; destruct index as [c|]; [|apply commutes_undefined].
  cbv zeta.
  apply (commutes_bind (fun v => v)); [now apply commutes_gets|]; intro clk.
  apply (commutes_bind (fun v => v)); [apply commutes_defined|]; intro etime.
  now apply Insert_event_commutes.
Qed.

Lemma start_service_commutes :
  commutes other_Custs (fun u => u)
    (start_service LONG_MAX) (start_service LONG_MAX).
Proof.
  unfold start_service.
  apply (commutes_bind (fun v => v)); [apply Takoff_queue_commutes|].
  intro index.
  apply (commutes_bind (fun v => v)); [now apply commutes_modify|]; intros _.
  apply Gen_departure_commutes.
Qed.

Lemma arrive_commutes (ev_num : event_node) :
  commutes other_Custs (fun u => u)
    (arrive RAND_MAX LONG_MAX fresh_Custs iarrive_time service_time
            rand_stream ev_num)
    (arrive RAND_MAX LONG_MAX other_Custs iarrive_time service_time
            rand_stream (redraw other_Custs ev_num)).
Proof.
  unfold arrive.
  apply (commutes_bind (fun v => v)); [apply Gen_arrival_commutes|]; intros _.
  assert (E : forall (A : Type) (a b : A),
            match cust_index (redraw other_Custs ev_num) with
            | Some _ => a | None => b end
            = match cust_index ev_num with Some _ => a | None => b end).
  { intros A a b; unfold redraw.
    destruct (ev_type ev_num =? ARRIVAL); [|reflexivity].
    now destruct (cust_index ev_num). }
  rewrite E; destruct (cust_index ev_num) as [index|];
    [|apply commutes_undefined].
  apply (commutes_bind (fun v => v)); [now apply commutes_gets|]; intro clk.
  apply (commutes_bind (fun v => v)); [apply expon_commutes|]; intro burst.
  apply (commutes_bind (fun v => v)); [apply Puton_queue_commutes|]; intros _.
  apply (commutes_bind (fun v => v)); [now apply commutes_gets|]; intro b.
  destruct b; [apply (commutes_ret (fun u => u)) | apply start_service_commutes].
Qed.

Lemma depart_commutes (ev_num : event_node) :
  commutes other_Custs (fun u => u)
    (depart LONG_MAX ev_num) (depart LONG_MAX ev_num).
Proof.
  unfold depart.
  apply (commutes_bind (fun v => v)); [now apply commutes_modify|]; intros _.
  destruct (cust_index ev_num) as [index|]; [|apply commutes_undefined].
  apply (commutes_bind (fun v => v)); [now apply commutes_gets|]; intro clk.
  apply (commutes_bind (fun v => v)); [apply commutes_defined|]; intro temp.
  apply (commutes_bind (fun v => v)); [now apply commutes_modify|]; intros _.
  apply (commutes_bind (fun v => v)); [now apply commutes_modify|]; intros _.
  apply (commutes_bind (fun v => v));
    [unfold free_Custs; now apply commutes_modify|]; intros _.
  apply (commutes_bind (fun v => v)); [now apply commutes_gets|]; intro q.
  destruct q; [apply (commutes_ret (fun u => u)) | apply start_service_commutes].
Qed.

Lemma main_body_commutes :
  commutes other_Custs (fun not_done => not_done)
    (main_body RAND_MAX LONG_MAX fresh_Custs iarrive_time service_time
               rand_stream)
    (main_body RAND_MAX LONG_MAX other_Custs iarrive_time service_time
               rand_stream).
Proof.
  unfold main_body.
  eapply commutes_bind; [apply Remove_event_commutes|].
  intros [event|]; [|apply commutes_undefined].
  cbn [option_map]; rewrite ev_time_redraw, ev_type_redraw.
  apply (commutes_bind (fun v => v)); [now apply commutes_modify|]; intros _.
  destruct (ev_type event =? ARRIVAL) eqn:Ty.
  { apply (commutes_bind (fun v => v)); [apply arrive_commutes|]; intros _.
    apply (commutes_ret (fun b => b)). }
  assert (E : redraw other_Custs event = event)
    by (unfold redraw; now rewrite Ty).
  rewrite E.
  destruct (ev_type event =? COMPLETE).
  { apply (commutes_bind (fun v => v)); [apply depart_commutes|]; intros _.
    apply (commutes_ret (fun b => b)). }
  destruct (ev_type event =? EOS).
  { apply (commutes_bind (fun v => v)); [|intros _;
                                           apply (commutes_ret (fun b => b))].
    intro s; reflexivity. }
  apply (commutes_bind (fun v => v)); [now apply commutes_modify|]; intros _.
  apply (commutes_ret (fun b => b)).
Qed.

Lemma main_loop_commutes (fuel : nat) :
  commutes other_Custs (fun left => left)
    (main_loop RAND_MAX LONG_MAX fresh_Custs iarrive_time service_time
               rand_stream fuel)
    (main_loop RAND_MAX LONG_MAX other_Custs iarrive_time service_time
               rand_stream fuel).
Proof.
  induction fuel as [|fuel IH]; cbn [main_loop].
  - apply (commutes_ret (fun b => b)).
  - apply (commutes_bind (fun v => v)); [apply main_body_commutes|].
    intros [|]; [exact IH | apply (commutes_ret (fun b => b))].
Qed.

Lemma main_prologue_commutes :
  commutes other_Custs (fun u => u)
    (main_prologue RAND_MAX LONG_MAX fresh_Custs iarrive_time sim_length
                   rand_stream)
    (main_prologue RAND_MAX LONG_MAX other_Custs iarrive_time sim_length
                   rand_stream).
Proof.
  unfold main_prologue.
  apply (commutes_bind (fun v => v));
    [unfold Initialize; now apply commutes_modify|]; intros _.
  apply (commutes_bind (fun v => v));
    [now apply Insert_event_commutes|]; intros _.
  apply Gen_arrival_commutes.
Qed.

(** X22.  No run reads a customer record before [arrive] has written it:
    with other contents of the storage [malloc] hands out, [main] does
    the same, turn for turn, up to the contents of the records of the
    arrivals still pending; it is undefined for the same inputs, leaves
    the loop at the same turn, and ends with the same clock, statistics,
    queue and output. *)
Theorem fresh_storage_is_never_read (fuel : nat) :
  main RAND_MAX LONG_MAX other_Custs iarrive_time service_time sim_length
       rand_stream fuel loaded
  = match main RAND_MAX LONG_MAX fresh_Custs iarrive_time service_time
               sim_length rand_stream fuel loaded with
    | Some (loop_left, s) => Some (loop_left, refresh other_Custs s)
    | None => None
    end /\
  forall s,
    sjf (refresh other_Custs s) = sjf s /\
    accum_resp_time (refresh other_Custs s) = accum_resp_time s /\
    num_resp_time (refresh other_Custs s) = num_resp_time s /\
    clock (refresh other_Custs s) = clock s /\
    busy (refresh other_Custs s) = busy s /\
    out (refresh other_Custs s) = out s /\
    map ev_time (top_event (refresh other_Custs s))
    = map ev_time (top_event s) /\
    map ev_type (top_event (refresh other_Custs s))
    = map ev_type (top_event s).
Proof.
  split.
  - assert (H : commutes other_Custs (fun left : bool => left)
                  (main RAND_MAX LONG_MAX fresh_Custs iarrive_time
                        service_time sim_length rand_stream fuel)
                  (main RAND_MAX LONG_MAX other_Custs iarrive_time
                        service_time sim_length rand_stream fuel)).
    { unfold main.
      apply (commutes_bind (fun v => v)); [apply main_prologue_commutes|].
      intros _; apply main_loop_commutes. }
    exact (H loaded).
  - intro s; repeat (split; [reflexivity|]).
    unfold refresh; cbn [top_event set_top_event]; rewrite !map_map.
    split; apply map_ext; intro e;
      [apply ev_time_redraw | apply ev_type_redraw].
Qed.

End Storage.

(** ** The theorems at sample data *)

Example Insert_event_into_empty_list :
  Timeline.Insert_event EOS 1000 None []
  = Some ([mkEvent EOS 1000 None], []).
Proof. reflexivity. Qed.

Example Insert_event_same_time_goes_behind :
  Timeline.Insert_event COMPLETE 50 None
    [mkEvent ARRIVAL 50 None; mkEvent ARRIVAL 50 (Some (mkCusts 0 1));
     mkEvent EOS 1000 None]
  = Some ([mkEvent ARRIVAL 50 None; mkEvent ARRIVAL 50 (Some (mkCusts 0 1));
           mkEvent COMPLETE 50 None; mkEvent EOS 1000 None], []).
Proof. reflexivity. Qed.

Example Remove_event_underflow :
  Timeline.Remove_event []
  = (None, [], [Text " ***Error - Event list underflow***"]).
Proof. reflexivity. Qed.

Example Puton_queue_ten_then_two :
  match ReadyQueue.Puton_queue [] (mkCusts 0 10) with
  | Some q => ReadyQueue.Puton_queue q (mkCusts 0 2)
  | None => None
  end = Some [mkCusts 0 2; mkCusts 0 10].
Proof. reflexivity. Qed.

Example Puton_queue_equal_bursts_keep_arrival_order :
  ReadyQueue.Puton_queue [mkCusts 1 5; mkCusts 2 5; mkCusts 3 7] (mkCusts 4 5)
  = Some [mkCusts 1 5; mkCusts 2 5; mkCusts 4 5; mkCusts 3 7].
Proof. reflexivity. Qed.

Example Takoff_queue_underflow :
  ReadyQueue.Takoff_queue []
  = (None, [], [Text " ***Error - queue underflow***"]).
Proof. reflexivity. Qed.

Example start_service_on_empty_queue_is_undefined :
  start_service LONG_MAX_lp64
    (mkState [mkEvent EOS 10 None] [] 0%R 0%R 0 false 0 0 []) = None.
Proof. reflexivity. Qed.

Example main_body_at_end_of_simulation :
  main_body RAND_MAX_gnu LONG_MAX_lp64 (mkCusts 0 0) 1%R 1%R (always 0)
            sample_end
  = Some (false,
          mkState [] [] 300%R 2%R 10 false 0 0
                  [Text "...Simulation ends"; Text " Simulation results";
                   MeanResponse (300 / (100 * 2))%R]).
Proof. reflexivity. Qed.

Lemma RAND_MAX_gnu_pos : 0 < RAND_MAX_gnu.
Proof. reflexivity. Qed.





(** Two events at time 50, inserted A then B behind an event at 50 and
    before one at 100, are removed A first. *)
Lemma Timeline_time_order_first_in_first_out_witness :
  exists pre post,
    [mkEvent ARRIVAL 50 None; mkEvent EOS 100 None] = pre ++ post /\
    Timeline.after_insert COMPLETE 50 (Some (mkCusts 1 2))
      (Timeline.after_insert COMPLETE 50 (Some (mkCusts 0 7))
         [mkEvent ARRIVAL 50 None; mkEvent EOS 100 None])
      = pre ++ mkEvent COMPLETE 50 (Some (mkCusts 0 7))
            :: mkEvent COMPLETE 50 (Some (mkCusts 1 2)) :: post /\
    Timeline.removal_order (length pre + 2)
        (pre ++ mkEvent COMPLETE 50 (Some (mkCusts 0 7))
             :: mkEvent COMPLETE 50 (Some (mkCusts 1 2)) :: post)
      = pre ++ [mkEvent COMPLETE 50 (Some (mkCusts 0 7));
                mkEvent COMPLETE 50 (Some (mkCusts 1 2))].
Proof.
  assert (Hord : ordered ev_time
                   [mkEvent ARRIVAL 50 None; mkEvent EOS 100 None])
    by (apply orderedb_ordered; reflexivity).
  apply (proj1 (proj2 (proj2
           (Timeline_time_order_first_in_first_out RAND_MAX_gnu LONG_MAX_lp64
              (mkCusts 0 0) 1%R 1%R 10 (always 0)
              [mkEvent ARRIVAL 50 None; mkEvent EOS 100 None] Hord)))).
Defined.

(** An event at 20 into events at 10, 20 and 30. *)
Lemma Insert_event_scan_finds_later_event_witness :
  exists walked pos forward,
    Timeline.scan 20 [mkEvent ARRIVAL 10 None; mkEvent COMPLETE 20 None;
                      mkEvent EOS 30 None]
      = Some (walked, pos :: forward) /\
    ev_time pos > 20 /\
    Forall (fun e => ev_time e <= 20) walked /\
    Timeline.Insert_event ARRIVAL 20 None
        [mkEvent ARRIVAL 10 None; mkEvent COMPLETE 20 None;
         mkEvent EOS 30 None]
      = Some (walked ++ mkEvent ARRIVAL 20 None :: pos :: forward, []).
Proof.
  apply (Insert_event_scan_finds_later_event (mkEvent ARRIVAL 10 None)
           [mkEvent COMPLETE 20 None; mkEvent EOS 30 None]).
  - apply orderedb_ordered; reflexivity.
  - simpl; lia.
  - reflexivity.
Defined.


(** A customer of burst 5 into bursts 1, 5 and 9. *)
Lemma Puton_queue_scan_stops_before_end_witness :
  exists pre following_node post,
    [mkCusts 0 5; mkCusts 0 9] = pre ++ following_node :: post /\
    ReadyQueue.scan (mkCusts 3 5) (mkCusts 0 1) [mkCusts 0 5; mkCusts 0 9]
      = Some (mkCusts 0 1 :: pre ++ mkCusts 3 5 :: following_node :: post) /\
    Forall (fun c => CPU_time c <= CPU_time (mkCusts 3 5)) pre /\
    CPU_time (mkCusts 3 5) < CPU_time following_node /\
    (length pre < length [mkCusts 0 5; mkCusts 0 9])%nat /\
    ReadyQueue.Puton_queue [mkCusts 0 1; mkCusts 0 5; mkCusts 0 9]
                           (mkCusts 3 5)
      = Some (mkCusts 0 1 :: pre ++ mkCusts 3 5 :: following_node :: post).
Proof.
  apply (Puton_queue_scan_stops_before_end (mkCusts 0 1)
           [mkCusts 0 5; mkCusts 0 9] (mkCusts 3 5)).
  - apply orderedb_ordered; reflexivity.
  - simpl; lia.
  - reflexivity.
Defined.

(** Bursts 10 and 2 waiting, server idle: the customer of burst 2 is
    served. *)
Lemma ready_queue_shortest_job_first_witness :
  exists pre post,
    top_event sample_idle = pre ++ post /\
    start_service LONG_MAX_lp64 sample_idle
    = Some (tt, set_top_event
                  (pre ++ mkEvent COMPLETE (clock sample_idle + 2)
                                  (Some (mkCusts 0 2)) :: post)
                  (set_busy true (set_sjf [mkCusts 0 10] sample_idle))).
Proof.
  assert (Hord : ordered CPU_time [mkCusts 0 2; mkCusts 0 10])
    by (apply orderedb_ordered; reflexivity).
  apply (proj1 (proj2 (proj2
           (ready_queue_shortest_job_first RAND_MAX_gnu LONG_MAX_lp64
              (mkCusts 0 0) 1%R 1%R 10 (always 0)
              [mkCusts 0 2; mkCusts 0 10] Hord)))
           sample_idle (mkCusts 0 10) (mkCusts 0 2)).
  - reflexivity.
  - apply perm_swap.
  - reflexivity.
  - reflexivity.
  - reflexivity.
  - unfold LONG_MIN, LONG_MAX_lp64; simpl; lia.
Defined.



(** With the GNU C library's [RAND_MAX] the draw reaches 1. *)
Lemma uniform_draw_reaches_one_witness :
  uniform RAND_MAX_gnu RAND_MAX_gnu = 1%R.
Proof.
  apply (uniform_draw_reaches_one RAND_MAX_gnu LONG_MAX_lp64
           (always RAND_MAX_gnu) RAND_MAX_gnu_pos).
Defined.





(** ** Further sample runs *)

(** With mean 1 the draw 1 gives the duration 1. *)
Lemma sample_duration_one :
  expon_of_draw RAND_MAX_gnu LONG_MAX_lp64 1 1 = Some 1.
Proof.
  apply expon_of_draw_one.
  - exact RAND_MAX_gnu_pos.
  - lra.
  - unfold RAND_MAX_gnu; lia.
  - change (RAND_MAX_gnu - 1) with 2147483646; lra.
  - unfold LONG_MAX_lp64; lia.
Qed.



Lemma sample_entry_at_1_prologue :
  main_prologue RAND_MAX_gnu LONG_MAX_lp64 (mkCusts 0 0) 1%R 10 (always 1)
                loaded
  = Some (tt, sample_entry_at_1).
Proof.
  apply (main_prologue_run RAND_MAX_gnu LONG_MAX_lp64 (mkCusts 0 0) 1%R 10
           (always 1) 1 sample_duration_one).
  unfold LONG_MIN, LONG_MAX_lp64; lia.
Qed.

Lemma sample_served_turn :
  main_body RAND_MAX_gnu LONG_MAX_lp64 (mkCusts 0 0) 1%R 1%R (always 1)
            sample_entry_at_1
  = Some (true, sample_served).
Proof.
  rewrite (main_body_run RAND_MAX_gnu LONG_MAX_lp64 (mkCusts 0 0) 1%R 1%R
             (always 1) sample_entry_at_1 _ _ eq_refl).
  cbv zeta.
  change (ev_type (mkEvent ARRIVAL 1 (Some (mkCusts 0 0))) =? ARRIVAL)
    with true.
  cbv iota.
  erewrite (arrive_run RAND_MAX_gnu LONG_MAX_lp64 (mkCusts 0 0) 1%R 1%R
              (always 1) (mkEvent ARRIVAL 1 (Some (mkCusts 0 0))) _
              (mkCusts 0 0) 1 1 [mkCusts 1 1]);
    [reflexivity | reflexivity | exact sample_duration_one |
     | exact sample_duration_one | reflexivity].
  unfold LONG_MIN, LONG_MAX_lp64; simpl; lia.
Qed.

Lemma sample_served_at_loop :
  at_loop RAND_MAX_gnu LONG_MAX_lp64 (mkCusts 0 0) 1%R 1%R 10 (always 1)
          sample_served.
Proof.
  exact (at_loop_next _ _ _ _ _ _ _ _ _
           (at_loop_first _ _ _ _ _ _ _ _ sample_entry_at_1_prologue)
           sample_served_turn).
Qed.

(** One turn of a simulation of length 10, all durations being 1. *)
Lemma sample_one_turn :
  main RAND_MAX_gnu LONG_MAX_lp64 (mkCusts 0 0) 1%R 1%R 10 (always 1) 1 loaded
  = Some (false, sample_served).
Proof.
  unfold main.
  rewrite (bind_run _ _ _ _ _ sample_entry_at_1_prologue).
  cbn [main_loop].
  now rewrite (bind_run _ _ _ _ _ sample_served_turn).
Qed.

(** A simulation of length 1, all durations being 1. *)
Lemma sample_short_run :
  main RAND_MAX_gnu LONG_MAX_lp64 (mkCusts 0 0) 1%R 1%R 1 (always 1) 1 loaded
  = Some (true, sample_no_customer).
Proof.
  apply (main_empty_run RAND_MAX_gnu LONG_MAX_lp64 (mkCusts 0 0) 1%R 1%R 1
           (always 1) 0 1 sample_duration_one);
    unfold LONG_MIN, LONG_MAX_lp64; lia.
Qed.

(** An arrival at clock 10 while the server is busy, all durations
    being 1: the customer goes before the one of burst 4. *)
Lemma arrive_processes_arrival_witness :
  exists pre post,
    sjf sample_busy = pre ++ post /\
    arrive RAND_MAX_gnu LONG_MAX_lp64 (mkCusts 0 0) 1%R 1%R (always 1)
           (mkEvent ARRIVAL 10 (Some (mkCusts 0 0))) sample_busy
    = Some (tt, set_sjf (pre ++ mkCusts 10 1 :: post)
                  (set_rand_calls 2
                     (set_top_event
                        [mkEvent ARRIVAL 11 (Some (mkCusts 0 0));
                         mkEvent EOS 100 None]
                        (set_live_custs 3 sample_busy)))).
Proof.
  assert (Hr : LONG_MIN LONG_MAX_lp64 <= clock sample_busy + 1
               <= LONG_MAX_lp64)
    by (unfold LONG_MIN, LONG_MAX_lp64; simpl; lia).
  destruct (proj1 (arrive_processes_arrival RAND_MAX_gnu LONG_MAX_lp64
                     (mkCusts 0 0) 1%R 1%R (always 1)
                     (mkEvent ARRIVAL 10 (Some (mkCusts 0 0))) sample_busy
                     (mkCusts 0 0) 1 1 eq_refl sample_duration_one Hr
                     sample_duration_one) eq_refl)
    as (pre & post & E & Hrun & _).
  exists pre, post; split; [exact E | exact Hrun].
Defined.

(** After the first turn the server is busy and one completion is
    pending. *)
Lemma server_busy_iff_completion_pending_witness :
  count_events COMPLETE (top_event sample_served) = 1%nat /\
  (busy sample_served = false -> sjf sample_served = []).
Proof.
  apply (server_busy_iff_completion_pending RAND_MAX_gnu LONG_MAX_lp64
           (mkCusts 0 0) 1%R 1%R 10 (always 1) sample_served).
  exact sample_served_at_loop.
Defined.

(** After the first turn three events are pending. *)
Lemma pending_events_of_a_run_witness :
  count_events ARRIVAL (top_event sample_served) = 1%nat /\
  count_events EOS (top_event sample_served) = 1%nat /\
  length (top_event sample_served) = 3%nat /\
  Forall (event_wf 10) (top_event sample_served) /\
  exists event forward,
    Timeline.Remove_event (top_event sample_served)
    = (Some event, forward, []).
Proof.
  apply (pending_events_of_a_run RAND_MAX_gnu LONG_MAX_lp64
           (mkCusts 0 0) 1%R 1%R 10 (always 1) sample_served).
  exact sample_served_at_loop.
Defined.

(** After one turn two records are allocated: the one of the pending
    arrival and the one of the customer in service. *)
Lemma customer_records_accounted_for_witness :
  live_custs sample_served
  = 1 + Z.of_nat (length (sjf sample_served)) + 1.
Proof.
  apply (customer_records_accounted_for RAND_MAX_gnu LONG_MAX_lp64
           (mkCusts 0 0) 1%R 1%R 10 (always 1) 1 sample_served false).
  exact sample_one_turn.
Defined.



(** Bursts 7 and 5 put on a queue of bursts 5 and 7. *)
Lemma Puton_queue_sorts_stably_witness :
  exists q,
    Puton_customers [mkCusts 3 7; mkCusts 4 5] [mkCusts 1 5; mkCusts 2 7]
    = Some q /\
    ordered CPU_time q /\
    Permutation q ([mkCusts 1 5; mkCusts 2 7] ++ [mkCusts 3 7; mkCusts 4 5]) /\
    forall b, filter (of_burst b) q
              = filter (of_burst b) [mkCusts 1 5; mkCusts 2 7]
                ++ filter (of_burst b) [mkCusts 3 7; mkCusts 4 5].
Proof.
  apply (Puton_queue_sorts_stably [mkCusts 3 7; mkCusts 4 5]
           [mkCusts 1 5; mkCusts 2 7]).
  apply orderedb_ordered; reflexivity.
Defined.

(** Events at 100 and 50 inserted into events at 50 and 100. *)
Lemma Insert_event_sorts_stably_witness :
  exists tl',
    Insert_events [mkEvent COMPLETE 100 (Some (mkCusts 0 7));
                   mkEvent COMPLETE 50 (Some (mkCusts 1 2))]
                  [mkEvent ARRIVAL 50 None; mkEvent EOS 100 None]
    = Some tl' /\
    ordered ev_time tl' /\
    Permutation tl'
      ([mkEvent ARRIVAL 50 None; mkEvent EOS 100 None]
       ++ [mkEvent COMPLETE 100 (Some (mkCusts 0 7));
           mkEvent COMPLETE 50 (Some (mkCusts 1 2))]) /\
    (forall t, filter (at_time t) tl'
               = filter (at_time t)
                   [mkEvent ARRIVAL 50 None; mkEvent EOS 100 None]
                 ++ filter (at_time t)
                      [mkEvent COMPLETE 100 (Some (mkCusts 0 7));
                       mkEvent COMPLETE 50 (Some (mkCusts 1 2))]) /\
    Timeline.removal_order (length tl') tl' = tl'.
Proof.
  apply (Insert_event_sorts_stably
           [mkEvent COMPLETE 100 (Some (mkCusts 0 7));
            mkEvent COMPLETE 50 (Some (mkCusts 1 2))]
           [mkEvent ARRIVAL 50 None; mkEvent EOS 100 None]).
  apply orderedb_ordered; reflexivity.
Defined.







(** A simulation of length 3, all durations being 1, turn by turn. *)
Lemma sample_run_prologue :
  main_prologue RAND_MAX_gnu LONG_MAX_lp64 (mkCusts 0 0) 1%R 3 (always 1)
                loaded
  = Some (tt, sample_run_entry).
Proof.
  apply (main_prologue_run RAND_MAX_gnu LONG_MAX_lp64 (mkCusts 0 0) 1%R 3
           (always 1) 1 sample_duration_one).
  unfold LONG_MIN, LONG_MAX_lp64; lia.
Qed.

Lemma sample_run_turn_1 :
  main_body RAND_MAX_gnu LONG_MAX_lp64 (mkCusts 0 0) 1%R 1%R (always 1)
            sample_run_entry
  = Some (true, sample_run_first_served).
Proof.
  rewrite (main_body_run RAND_MAX_gnu LONG_MAX_lp64 (mkCusts 0 0) 1%R 1%R
             (always 1) sample_run_entry _ _ eq_refl).
  cbv zeta.
  change (ev_type (mkEvent ARRIVAL 1 (Some (mkCusts 0 0))) =? ARRIVAL)
    with true.
  cbv iota.
  erewrite (arrive_run RAND_MAX_gnu LONG_MAX_lp64 (mkCusts 0 0) 1%R 1%R
              (always 1) (mkEvent ARRIVAL 1 (Some (mkCusts 0 0))) _
              (mkCusts 0 0) 1 1 [mkCusts 1 1]);
    [reflexivity | reflexivity | exact sample_duration_one |
     | exact sample_duration_one | reflexivity].
  unfold LONG_MIN, LONG_MAX_lp64; simpl; lia.
Qed.

Lemma sample_run_turn_2 :
  main_body RAND_MAX_gnu LONG_MAX_lp64 (mkCusts 0 0) 1%R 1%R (always 1)
            sample_run_first_served
  = Some (true, sample_run_second_waits).
Proof.
  rewrite (main_body_run RAND_MAX_gnu LONG_MAX_lp64 (mkCusts 0 0) 1%R 1%R
             (always 1) sample_run_first_served _ _ eq_refl).
  cbv zeta.
  change (ev_type (mkEvent ARRIVAL 2 (Some (mkCusts 0 0))) =? ARRIVAL)
    with true.
  cbv iota.
  erewrite (arrive_run RAND_MAX_gnu LONG_MAX_lp64 (mkCusts 0 0) 1%R 1%R
              (always 1) (mkEvent ARRIVAL 2 (Some (mkCusts 0 0))) _
              (mkCusts 0 0) 1 1 [mkCusts 2 1]);
    [reflexivity | reflexivity | exact sample_duration_one |
     | exact sample_duration_one | reflexivity].
  unfold LONG_MIN, LONG_MAX_lp64; simpl; lia.
Qed.

Lemma sample_run_turn_3 :
  main_body RAND_MAX_gnu LONG_MAX_lp64 (mkCusts 0 0) 1%R 1%R (always 1)
            sample_run_second_waits
  = Some (true, sample_run_second_served).
Proof.
  rewrite (main_body_run RAND_MAX_gnu LONG_MAX_lp64 (mkCusts 0 0) 1%R 1%R
             (always 1) sample_run_second_waits _ _ eq_refl).
  cbv zeta.
  change (ev_type (mkEvent COMPLETE 2 (Some (mkCusts 1 1))) =? ARRIVAL)
    with false.
  change (ev_type (mkEvent COMPLETE 2 (Some (mkCusts 1 1))) =? COMPLETE)
    with true.
  cbv iota.
  erewrite (depart_run LONG_MAX_lp64
              (mkEvent COMPLETE 2 (Some (mkCusts 1 1))) _ (mkCusts 1 1));
    [reflexivity | reflexivity |].
  unfold LONG_MIN, LONG_MAX_lp64; simpl; lia.
Qed.

Lemma sample_run_turn_4 :
  main_body RAND_MAX_gnu LONG_MAX_lp64 (mkCusts 0 0) 1%R 1%R (always 1)
            sample_run_second_served
  = Some (false, sample_run_report).
Proof. reflexivity. Qed.

Lemma sample_run :
  main RAND_MAX_gnu LONG_MAX_lp64 (mkCusts 0 0) 1%R 1%R 3 (always 1) 4 loaded
  = Some (true, sample_run_report).
Proof.
  unfold main.
  rewrite (bind_run _ _ _ _ _ sample_run_prologue).
  cbn [main_loop].
  rewrite (bind_run _ _ _ _ _ sample_run_turn_1).
  rewrite (bind_run _ _ _ _ _ sample_run_turn_2).
  rewrite (bind_run _ _ _ _ _ sample_run_turn_3).
  now rewrite (bind_run _ _ _ _ _ sample_run_turn_4).
Qed.



(** No event pending, nobody waiting, an event without a customer. *)
Lemma NULL_is_not_guarded_against_witness :
  main_body RAND_MAX_gnu LONG_MAX_lp64 (mkCusts 0 0) 1%R 1%R (always 1)
            loaded = None /\
  start_service LONG_MAX_lp64 loaded = None /\
  arrive RAND_MAX_gnu LONG_MAX_lp64 (mkCusts 0 0) 1%R 1%R (always 1)
         (mkEvent EOS 10 None) loaded = None /\
  depart LONG_MAX_lp64 (mkEvent EOS 10 None) loaded = None.
Proof.
  destruct (NULL_is_not_guarded_against RAND_MAX_gnu LONG_MAX_lp64
              (mkCusts 0 0) 1%R 1%R (always 1) loaded
              (mkEvent EOS 10 None)) as (H1 & H2 & H3).
  split; [exact (H1 eq_refl)|]; split; [exact (H2 eq_refl)|].
  exact (H3 eq_refl).
Defined.


(** The simulation of length 3 stops with the clock at 3. *)
Lemma clock_stops_at_sim_length_witness :
  clock sample_run_report <= 3 /\
  (true = true -> clock sample_run_report = 3).
Proof.
  apply (clock_stops_at_sim_length RAND_MAX_gnu LONG_MAX_lp64
           (mkCusts 0 0) 1%R 1%R 3 (always 1) 4 sample_run_report true).
  - lia.
  - exact sample_run.
Defined.
